(** * The JOS kernel monitor (kern/monitor.c), embedded and verified

    The monitor is the interactive console of the JOS teaching kernel for
    32-bit x86.  This development embeds its code as Rocq functions over an
    explicit kernel state and proves the properties its specification
    states about the numeral parser, the tokenizer, the command dispatch,
    the stack unwinder and the page-table inspector. *)

From Stdlib Require Import ZArith Lia Ascii String.
From stdpp Require Import base gmap strings list.

Local Open Scope Z_scope.

(* ===================================================================== *)
(** * Part I.  The code                                                   *)
(* ===================================================================== *)

(** ** Machine arithmetic of the i386 target *)

(** [uintptr_t], [uint32_t], [pte_t]: 32-bit unsigned words. *)
Definition to_uint32 (z : Z) : Z := z mod 2 ^ 32.

(** [int]: 32-bit two's complement. *)
Definition to_int (z : Z) : Z := (z + 2 ^ 31) mod 2 ^ 32 - 2 ^ 31.

(** [char] is signed on the target: the bytes 128..255 are negative. *)
Definition char_val (c : ascii) : Z :=
  let n := Z.of_N (N_of_ascii c) in
  if n <? 128 then n else n - 256.

(** [*c] is the terminator of a C string. *)
Definition is_nul (c : ascii) : bool := Ascii.eqb c zero.

(** ** convert: the numeral parser *)

(** The [while] loop of [convert], which runs until the terminator;
    [res] is the [int] accumulator. *)
Fixpoint convert_loop (base : Z) (c : string) (res : Z) : Z :=
  match c with
  | EmptyString => res
  | String ch rest =>
      if is_nul ch then res
      else
        let res := to_int (res * base) in
        let res :=
          if char_val ch <=? char_val "9"
          then to_int (res + (char_val ch - char_val "0"))
          else to_int (res + (char_val ch - char_val "a" + 10)) in
        convert_loop base rest res
  end.

(** [c[0] == '0' && c[1] == 'x'] *)
Definition has_hex_prefix (c : string) : bool :=
  match c with
  | String c0 (String c1 _) => Ascii.eqb c0 "0" && Ascii.eqb c1 "x"
  | _ => false
  end.

(** [c += 2], taken only when the first two characters are there. *)
Definition skip_prefix (c : string) : string :=
  match c with
  | String _ (String _ rest) => rest
  | _ => c
  end.

Definition convert (c : string) : Z :=
  if has_hex_prefix c
  then to_uint32 (convert_loop 16 (skip_prefix c) 0)
  else to_uint32 (convert_loop 10 c 0).

(** *** What a numeral denotes (the reference the parser is compared with) *)

Definition is_decimal_digit (c : ascii) : bool :=
  (("0" <=? c) && (c <=? "9"))%char.

Definition is_lower_hex_letter (c : ascii) : bool :=
  (("a" <=? c) && (c <=? "f"))%char.

Definition is_lower_hex_digit (c : ascii) : bool :=
  is_decimal_digit c || is_lower_hex_letter c.

(** The value of one digit, by table. *)
Definition digit_value (c : ascii) : Z :=
  match c with
  | "0" => 0 | "1" => 1 | "2" => 2 | "3" => 3 | "4" => 4
  | "5" => 5 | "6" => 6 | "7" => 7 | "8" => 8 | "9" => 9
  | "a" => 10 | "b" => 11 | "c" => 12 | "d" => 13 | "e" => 14 | "f" => 15
  | _ => 0
  end%char.

(** Positional value of a numeral written most significant digit first. *)
Fixpoint numeral_value (base : Z) (s : string) : Z :=
  match s with
  | EmptyString => 0
  | String d rest =>
      digit_value d * base ^ Z.of_nat (String.length rest)
      + numeral_value base rest
  end.

Fixpoint string_forall (p : ascii -> bool) (s : string) : bool :=
  match s with
  | EmptyString => true
  | String c rest => p c && string_forall p rest
  end.

(** A token for a word: [0x] and its eight hexadecimal digits. *)
Definition hex_char (d : Z) : ascii :=
  match d with
  | 0 => "0" | 1 => "1" | 2 => "2" | 3 => "3" | 4 => "4" | 5 => "5"
  | 6 => "6" | 7 => "7" | 8 => "8" | 9 => "9" | 10 => "a" | 11 => "b"
  | 12 => "c" | 13 => "d" | 14 => "e" | _ => "f"
  end%char.

Fixpoint hex_digits (n : nat) (z : Z) (acc : string) : string :=
  match n with
  | O => acc
  | S n => hex_digits n (z / 16) (String (hex_char (z mod 16)) acc)
  end.

Definition to_hex (z : Z) : string := "0x" +:+ hex_digits 8 z EmptyString.

(** The digit the specification attributes to a character: its value for
    '0'..'9', and [char - 'a' + 10] for every other character. *)
Definition spec_digit (c : ascii) : Z :=
  if is_decimal_digit c then char_val c - char_val "0"
  else char_val c - char_val "a" + 10.

(** The digit the code adds for a character. *)
Definition code_digit (c : ascii) : Z :=
  if char_val c <=? char_val "9" then char_val c - char_val "0"
  else char_val c - char_val "a" + 10.

(** The base [convert] selects for a token, and the digits it reads. *)
Definition base_of (c : string) : Z :=
  if has_hex_prefix c then 16 else 10.

Definition numeral_body (c : string) : string :=
  if has_hex_prefix c then skip_prefix c else c.

(** ** The kernel state the monitor runs against *)

(** An argument of a formatted print. *)
Inductive printf_arg :=
  | ArgInt (z : Z)
  | ArgStr (s : string).

Inductive console_event :=
  | Cprintf (fmt : string) (args : list printf_arg)
  | PrintTrapframe (tf : Z).

(** What the monitor reads and writes: the console output so far (oldest
    first), the readable words of memory by address, the kernel page
    directory with the page tables it points to, the pages left to the
    allocator, and the frame pointer register.  The page tables are
    held apart from [memory]: the words that [load] reads are those of
    [memory] alone, so this model says nothing of how a store into a
    page table shows in the words of memory. *)
Record kernel := Kernel {
  console : list console_event;
  memory : gmap Z Z;
  kern_pgdir : gmap Z (gmap Z Z);
  free_pages : nat;
  ebp_register : Z;
}.

(** How a piece of kernel code ends: it returns a value, it never returns
    because the kernel faults or panics, or the model ran out of steps
    for a loop. *)
Inductive outcome (A : Type) :=
  | Done (a : A)
  | Crash
  | OutOfFuel.
Arguments Done {A} a.
Arguments Crash {A}.
Arguments OutOfFuel {A}.

(** Kernel code: a state transformer that may fail; the state reached is
    kept also when it fails. *)
Definition M (A : Type) : Type := kernel -> outcome A * kernel.

#[export] Instance M_ret : MRet M := fun A a k => (Done a, k).

#[export] Instance M_bind : MBind M := fun A B f m k =>
  match m k with
  | (Done a, k') => f a k'
  | (Crash, k') => (Crash, k')
  | (OutOfFuel, k') => (OutOfFuel, k')
  end.

Definition crash {A} : M A := fun k => (Crash, k).
Definition out_of_fuel {A} : M A := fun k => (OutOfFuel, k).

Definition set_console (out : list console_event) (k : kernel) : kernel :=
  Kernel out (memory k) (kern_pgdir k) (free_pages k) (ebp_register k).

Definition set_pgdir (pd : gmap Z (gmap Z Z)) (free : nat) (k : kernel) : kernel :=
  Kernel (console k) (memory k) pd free (ebp_register k).

(** Modelled from the spec: cprintf (kern/printf.c) is not under src/.
    It is the formatted output sink; a call is recorded on the console
    with its format, written as in the source, and its arguments. *)
Definition cprintf (fmt : string) (args : list printf_arg) : M unit :=
  fun k => (Done tt, set_console (console k ++ [Cprintf fmt args]) k).

(** Modelled from the spec: print_trapframe (kern/trap.c) is not under
    src/.  The fault snapshot is printed verbatim; the call is recorded
    with the pointer it is given. *)
Definition print_trapframe (tf : Z) : M unit :=
  fun k => (Done tt, set_console (console k ++ [PrintTrapframe tf]) k).

(** Reading the word at an address; an unmapped address faults. *)
Definition load (addr : Z) : M Z := fun k =>
  match memory k !! addr with
  | Some v => (Done v, k)
  | None => (Crash, k)
  end.

(** Modelled from the spec: read_ebp (inc/x86.h) is not under src/.  It
    yields the current frame pointer, where the unwinder starts. *)
Definition read_ebp : M Z := fun k => (Done (ebp_register k), k).

(** [argv[i]]; past the end of the vector it is the null pointer, and the
    handlers read through it. *)
Definition arg (argv : list string) (i : nat) : M string := fun k =>
  match argv !! i with
  | Some s => (Done s, k)
  | None => (Crash, k)
  end.

(** ** The page table *)

(** Modelled from the spec: inc/mmu.h is not under src/.  The constants are
    those of the 32-bit x86 the kernel is written for; the specification
    fixes the low-order permission field, the present, writable and user
    bits, and the page-size stride, and the code masks the field with
    [0xfff]. *)
Definition PGSIZE : Z := 4096.
Definition PTE_P : Z := 1.
Definition PTE_W : Z := 2.
Definition PTE_U : Z := 4.
Definition PDX (va : Z) : Z := Z.land (Z.shiftr va 22) 1023.
Definition PTX (va : Z) : Z := Z.land (Z.shiftr va 12) 1023.
Definition PTE_ADDR (pte : Z) : Z := Z.land pte (Z.lnot 4095).

(** A pointer to a leaf entry: the directory slot and the slot in its page
    table; [None] is the null pointer. *)
Definition pte_ptr : Type := option (Z * Z).

(** Modelled from the spec: pgdir_walk (kern/pmap.c) is not under src/.
    The walk takes the table root, a virtual address and an allocate flag
    and yields a mutable reference to the leaf entry, or failure.  When the
    intermediate table of the address is absent it fails without the flag;
    with the flag it allocates a zeroed table and enters it in the
    directory, and fails when no memory is left for the table. *)
Definition pgdir_walk (va : Z) (create : bool) : M pte_ptr := fun k =>
  match kern_pgdir k !! PDX va with
  | Some _ => (Done (Some (PDX va, PTX va)), k)
  | None =>
      if create then
        match free_pages k with
        | O => (Done None, k)
        | S n =>
            (Done (Some (PDX va, PTX va)),
             set_pgdir (<[PDX va := ∅]> (kern_pgdir k)) n k)
        end
      else (Done None, k)
  end.

(** The entry a leaf pointer points to; slots never written are zero. *)
Definition pte_at (pd : gmap Z (gmap Z Z)) (r : Z * Z) : option Z :=
  match pd !! r.1 with
  | Some pt => Some (default 0 (pt !! r.2))
  | None => None
  end.

(** [*ptet]; the null pointer faults. *)
Definition read_pte (ptet : pte_ptr) : M Z := fun k =>
  match ptet with
  | Some r =>
      match pte_at (kern_pgdir k) r with
      | Some v => (Done v, k)
      | None => (Crash, k)
      end
  | None => (Crash, k)
  end.

(** [*ptet = v]: the store goes to the entry of the page table that
    the pointer designates; the null pointer faults.  Only [kern_pgdir]
    changes: the words of [memory] are not those of the page tables. *)
Definition write_pte (ptet : pte_ptr) (v : Z) : M unit := fun k =>
  match ptet with
  | Some r =>
      match kern_pgdir k !! r.1 with
      | Some pt =>
          (Done tt,
           set_pgdir (<[r.1 := <[r.2 := v]> pt]> (kern_pgdir k)) (free_pages k) k)
      | None => (Crash, k)
      end
  | None => (Crash, k)
  end.

(** [!!(x & bit)] *)
Definition flag (x bit : Z) : Z := if Z.land x bit =? 0 then 0 else 1.

(** ** The command table *)

(** [struct Command]; [F] is the type of what stands for the function
    pointer. *)
Record Command (F : Type) := mkCommand {
  name : string;
  desc : string;
  func : F;
}.
Arguments mkCommand {F} name desc func.
Arguments name {F} c.
Arguments desc {F} c.
Arguments func {F} c.

(** The functions the table points to. *)
Inductive mon_func :=
  | fn_mon_help
  | fn_mon_kerninfo
  | fn_mon_backtrace
  | fn_mon_showmappings
  | fn_setPerm
  | fn_vvm
  | fn_vpm.

Definition commands : list (Command mon_func) :=
  [ mkCommand "help" "Display this list of commands" fn_mon_help;
    mkCommand "kerninfo" "Display information about the kernel" fn_mon_kerninfo;
    mkCommand "backtrace" "Display all the outstanding stack frames" fn_mon_backtrace;
    mkCommand "showmappings" "Display memory mappings" fn_mon_showmappings;
    mkCommand "setPerm" "Set permission of a vtirual page" fn_setPerm;
    mkCommand "vvm" "Dump contents of certain virtual memory" fn_vvm;
    mkCommand "vpm" "Dump contents of certain physical memory" fn_vpm ].

(** A handler takes [argc], [argv] and the trap frame pointer. *)
Definition handler : Type := Z -> list string -> Z -> M Z.

(** The handlers that begin with the test [argc != 3]. *)
Definition checks_argc (f : mon_func) : bool :=
  match f with
  | fn_mon_showmappings | fn_setPerm | fn_vvm | fn_vpm => true
  | fn_mon_help | fn_mon_kerninfo | fn_mon_backtrace => false
  end.

(** The argument counts of the specification's command table, the
    command name counted. *)
Definition spec_arg_count (f : mon_func) : Z :=
  match f with
  | fn_mon_help | fn_mon_kerninfo | fn_mon_backtrace => 1
  | fn_mon_showmappings | fn_setPerm | fn_vvm | fn_vpm => 3
  end.

(** ** The services the monitor consumes *)

(** [struct Eipdebuginfo] of kern/kdebug.h. *)
Record Eipdebuginfo := mkEipdebuginfo {
  eip_file : string;
  eip_line : Z;
  eip_fn_name : string;
  eip_fn_namelen : Z;
  eip_fn_addr : Z;
}.

(** What is linked in from outside kern/monitor.c and left open here: the
    symbol lookup, the translation between physical addresses and their
    kernel virtual alias ([None] when the macro panics), the base of that
    alias, and the linker symbols of the kernel image ([end_] is the
    symbol [end]). *)
Class KernelServices := {
  debuginfo_eip : Z -> Eipdebuginfo;
  KADDR : Z -> option Z;
  PADDR : Z -> option Z;
  KERNBASE : Z;
  _start : Z;
  entry : Z;
  etext : Z;
  edata : Z;
  end_ : Z;
}.

(** [ROUNDUP] of inc/types.h, which rounds in 32-bit unsigned arithmetic
    and gives the result the type of [a], here [int]. *)
Definition ROUNDUP (a n : Z) : Z :=
  let t := to_uint32 (to_uint32 a + n - 1) in
  to_int (t - t mod n).

Section Handlers.
Context `{KernelServices}.

(** ** Basic commands *)

Fixpoint mon_help_loop {F} (table : list (Command F)) : M unit :=
  match table with
  | [] => mret tt
  | c :: rest =>
      cprintf "%s - %s\n" [ArgStr (name c); ArgStr (desc c)];;
      mon_help_loop rest
  end.

Definition mon_help : handler := fun argc argv tf =>
  mon_help_loop commands;;
  mret 0.

Definition mon_kerninfo : handler := fun argc argv tf =>
  cprintf "Special kernel symbols:\n" [];;
  cprintf "  _start                  %08x (phys)\n" [ArgInt _start];;
  cprintf "  entry  %08x (virt)  %08x (phys)\n"
    [ArgInt entry; ArgInt (to_uint32 (entry - KERNBASE))];;
  cprintf "  etext  %08x (virt)  %08x (phys)\n"
    [ArgInt etext; ArgInt (to_uint32 (etext - KERNBASE))];;
  cprintf "  edata  %08x (virt)  %08x (phys)\n"
    [ArgInt edata; ArgInt (to_uint32 (edata - KERNBASE))];;
  cprintf "  end    %08x (virt)  %08x (phys)\n"
    [ArgInt end_; ArgInt (to_uint32 (end_ - KERNBASE))];;
  cprintf "Kernel executable memory footprint: %dKB\n"
    [ArgInt (Z.quot (ROUNDUP (to_int (end_ - entry)) 1024) 1024)];;
  mret 0.

(** ** The stack unwinder *)

(** The [while (ebp != 0)] loop of [mon_backtrace]. *)
Fixpoint mon_backtrace_loop (fuel : nat) (ebp : Z) : M Z :=
  if ebp =? 0 then mret 0
  else
    match fuel with
    | O => out_of_fuel
    | S fuel =>
        eip ← load (to_uint32 (ebp + 4));
        a1 ← load (to_uint32 (ebp + 8));
        a2 ← load (to_uint32 (ebp + 12));
        a3 ← load (to_uint32 (ebp + 16));
        a4 ← load (to_uint32 (ebp + 20));
        a5 ← load (to_uint32 (ebp + 24));
        cprintf "ebp %08x eip %08x args %08x %08x %08x %08x %08x\n"
          [ArgInt ebp; ArgInt eip; ArgInt a1; ArgInt a2; ArgInt a3;
           ArgInt a4; ArgInt a5];;
        let info := debuginfo_eip eip in
        cprintf "\t%s:%d: %.*s+%d\n"
          [ArgStr (eip_file info); ArgInt (eip_line info);
           ArgInt (eip_fn_namelen info); ArgStr (eip_fn_name info);
           ArgInt (to_uint32 (eip - eip_fn_addr info))];;
        next ← load ebp;
        mon_backtrace_loop fuel next
    end.

Definition mon_backtrace (fuel : nat) : handler := fun argc argv tf =>
  ebp ← read_ebp;
  cprintf "Stack backreace:\n" [];;
  mon_backtrace_loop fuel ebp.

(** ** The address-space inspector *)

(** The [for (i = begin; i <= end; i += PGSIZE)] loop of
    [mon_showmappings]. *)
Fixpoint mon_showmappings_loop (fuel : nat) (i end' : Z) : M Z :=
  if i <=? end' then
    match fuel with
    | O => out_of_fuel
    | S fuel =>
        ptet ← pgdir_walk i true;
        match ptet with
        | None =>
            cprintf "Page walk error!\n" [];;
            mret 0
        | Some _ =>
            cprintf "Virtual address : 0x%08x " [ArgInt i];;
            pte ← read_pte ptet;
            (if negb (Z.land pte PTE_P =? 0)
             then
               cprintf "Physical page : 0x%08x PTE_P %d PTE_U %d PTE_W %d\n"
                 [ArgInt (PTE_ADDR pte); ArgInt (flag pte PTE_P);
                  ArgInt (flag pte PTE_U); ArgInt (flag pte PTE_W)]
             else cprintf "is not mapped!\n" []);;
            mon_showmappings_loop fuel (to_uint32 (i + PGSIZE)) end'
        end
    end
  else mret 0.

Definition mon_showmappings (fuel : nat) : handler := fun argc argv tf =>
  if negb (argc =? 3) then
    cprintf "Usage : showmappings <begin-address> <end-address>\n" [];;
    mret 0
  else
    a1 ← arg argv 1;
    let begin := convert a1 in
    a2 ← arg argv 2;
    let end' := convert a2 in
    cprintf "Got args: 0x%08x 0x%08x\n" [ArgInt begin; ArgInt end'];;
    mon_showmappings_loop fuel begin end'.

Definition setPerm : handler := fun argc argv tf =>
  if negb (argc =? 3) then
    cprintf "Usage : setPerm <virtual-address> <permission>" [];;
    mret 0
  else
    a1 ← arg argv 1;
    ptet ← pgdir_walk (convert a1) true;
    old ← read_pte ptet;
    write_pte ptet (Z.land old (Z.lnot 4095));;
    a2 ← arg argv 2;
    cur ← read_pte ptet;
    write_pte ptet (Z.lor cur (convert a2));;
    mret 0.

(** ** The memory dumper *)

(** [for (i = p; i < p + n; ++i)] over [int *]: [cur] and [lim] are the
    addresses [i] and [p + n]; [shown] yields the first argument of the
    print, or nothing when computing it panics. *)
Fixpoint dump_loop (shown : Z -> option Z) (fuel : nat) (cur lim : Z) : M Z :=
  if cur <? lim then
    match fuel with
    | O => out_of_fuel
    | S fuel =>
        match shown cur with
        | None => crash
        | Some a =>
            v ← load cur;
            cprintf "Value of 0x%08x is 0x%08x\n" [ArgInt a; ArgInt v];;
            dump_loop shown fuel (to_uint32 (cur + 4)) lim
        end
    end
  else mret 0.

Definition vpm (fuel : nat) : handler := fun argc argv tf =>
  if negb (argc =? 3) then
    cprintf "Usage : vpm <physical-address> <num>" [];;
    mret 0
  else
    a1 ← arg argv 1;
    let begin := to_int (convert a1) in
    a2 ← arg argv 2;
    let n := to_int (convert a2) in
    match KADDR (to_uint32 begin) with
    | None => crash
    | Some p => dump_loop PADDR fuel p (to_uint32 (p + 4 * n))
    end.

Definition vvm (fuel : nat) : handler := fun argc argv tf =>
  if negb (argc =? 3) then
    cprintf "Usage : vpm <virtual-address> <num>" [];;
    mret 0
  else
    a1 ← arg argv 1;
    let begin := to_int (convert a1) in
    a2 ← arg argv 2;
    let n := to_int (convert a2) in
    dump_loop Some fuel (to_uint32 begin) (to_uint32 (to_uint32 begin + 4 * n)).

(** Calling through the function pointer of a table entry. *)
Definition call (fuel : nat) (f : mon_func) : handler :=
  match f with
  | fn_mon_help => mon_help
  | fn_mon_kerninfo => mon_kerninfo
  | fn_mon_backtrace => mon_backtrace fuel
  | fn_mon_showmappings => mon_showmappings fuel
  | fn_setPerm => setPerm
  | fn_vvm => vvm fuel
  | fn_vpm => vpm fuel
  end.

End Handlers.

(** ** The command interpreter *)

(** [WHITESPACE] is tab, carriage return, newline and space. *)
Definition WHITESPACE : string :=
  String "009" (String "013" (String "010" (String " " EmptyString))).

Definition MAXARGS : nat := 16.

(** [strchr(s, c) != NULL]; the terminator of [s] matches the null
    character. *)
Fixpoint strchr (s : string) (c : ascii) : bool :=
  match s with
  | EmptyString => is_nul c
  | String d rest => if Ascii.eqb d c then true else strchr rest c
  end.

(** The first inner loop of [runcmd]: it passes over the whitespace at
    the head of the buffer (and overwrites it with terminators). *)
Fixpoint gobble_whitespace (buf : string) : string :=
  match buf with
  | EmptyString => EmptyString
  | String c rest =>
      if negb (is_nul c) && strchr WHITESPACE c
      then gobble_whitespace rest
      else buf
  end.

(** The second inner loop of [runcmd]: it passes over the characters up
    to the next whitespace or the terminator; they are the argument, and
    the scan resumes on the rest. *)
Fixpoint scan_arg (buf : string) : string * string :=
  match buf with
  | EmptyString => (EmptyString, EmptyString)
  | String c rest =>
      if negb (is_nul c) && negb (strchr WHITESPACE c)
      then let (tok, rest') := scan_arg rest in (String c tok, rest')
      else (EmptyString, buf)
  end.

(** [*buf == 0] *)
Definition at_terminator (buf : string) : bool :=
  match buf with
  | EmptyString => true
  | String c _ => is_nul c
  end.

(** The parsing loop of [runcmd].  [room] is [MAXARGS-1 - argc], the
    slots of [argv] still free: the loop gives up with [None] when it
    finds an argument and [argc == MAXARGS-1]. *)
Fixpoint parse_args (room : nat) (buf : string) (argv : list string)
  : option (list string) :=
  let buf := gobble_whitespace buf in
  if at_terminator buf then Some argv
  else
    match room with
    | O => None
    | S room =>
        let (tok, rest) := scan_arg buf in
        parse_args room rest (argv ++ [tok])
    end.

(** The lookup loop of [runcmd]: the first entry whose name compares
    equal to [argv[0]]. *)
Fixpoint lookup_command {F} (table : list (Command F)) (arg0 : string)
  : option (Command F) :=
  match table with
  | [] => None
  | c :: rest =>
      if String.eqb arg0 (name c) then Some c else lookup_command rest arg0
  end.

(** [runcmd] over any table, [invoke] calling through an entry's
    function pointer. *)
Definition runcmd_in {F} (invoke : F -> handler) (table : list (Command F))
    (buf : string) (tf : Z) : M Z :=
  match parse_args (MAXARGS - 1) buf [] with
  | None =>
      cprintf "Too many arguments (max %d)\n" [ArgInt (Z.of_nat MAXARGS)];;
      mret 0
  | Some argv =>
      match argv with
      | [] => mret 0
      | arg0 :: _ =>
          match lookup_command table arg0 with
          | Some c => invoke (func c) (Z.of_nat (length argv)) argv tf
          | None =>
              cprintf "Unknown command '%s'\n" [ArgStr arg0];;
              mret 0
          end
      end
  end.

(** ** The console loop *)

(** How the loop of [monitor] leaves off: it broke out and [monitor]
    returned, or it sits in [readline] with the input used up. *)
Inductive monitor_status :=
  | Returned
  | AwaitingInput.

(** The [while (1)] loop of [monitor]; [input] is what the successive
    calls of [readline] return, [None] for the null pointer. *)
Fixpoint monitor_loop {F} (invoke : F -> handler) (table : list (Command F))
    (input : list (option string)) (tf : Z) : M monitor_status :=
  match input with
  | [] => mret AwaitingInput
  | None :: input => monitor_loop invoke table input tf
  | Some buf :: input =>
      r ← runcmd_in invoke table buf tf;
      if r <? 0 then mret Returned
      else monitor_loop invoke table input tf
  end.

Definition monitor_in {F} (invoke : F -> handler) (table : list (Command F))
    (input : list (option string)) (tf : Z) : M monitor_status :=
  cprintf "Welcome to the JOS kernel monitor!\n" [];;
  cprintf "Type 'help' for a list of commands.\n" [];;
  (if tf =? 0 then mret tt else print_trapframe tf);;
  monitor_loop invoke table input tf.

Section Monitor.
Context `{KernelServices}.

(** [runcmd] and [monitor] on the static table. *)
Definition runcmd (fuel : nat) : string -> Z -> M Z :=
  runcmd_in (call fuel) commands.

Definition monitor (fuel : nat) : list (option string) -> Z -> M monitor_status :=
  monitor_in (call fuel) commands.

End Monitor.

(** *** What a line of input holds (the reference the tokenizer is
    compared with) *)

Definition is_separator (c : ascii) : bool :=
  (Ascii.eqb c "009" || Ascii.eqb c "013" || Ascii.eqb c "010"
   || Ascii.eqb c " ")%bool.

(** The number of maximal runs of characters other than separators, up
    to the terminator; [inside] says that the previous character
    belonged to such a run. *)
Fixpoint count_tokens (inside : bool) (s : string) : nat :=
  match s with
  | EmptyString => O
  | String c rest =>
      if is_nul c then O
      else if is_separator c then count_tokens false rest
      else ((if inside then 0 else 1) + count_tokens true rest)%nat
  end.

(** The three kinds of character the loops of [runcmd] tell apart. *)
Inductive char_kind (c : ascii) : Prop :=
  | kind_nul : is_nul c = true -> is_separator c = false -> char_kind c
  | kind_separator : is_nul c = false -> is_separator c = true -> char_kind c
  | kind_plain : is_nul c = false -> is_separator c = false -> char_kind c.

(** A character of an argument: neither the terminator nor a
    separator. *)
Definition is_plain (c : ascii) : bool := negb (is_nul c) && negb (is_separator c).

(** A token is a nonempty string of such characters, a gap a nonempty
    string of separators. *)
Definition is_token (s : string) : bool :=
  negb (String.eqb s EmptyString) && string_forall is_plain s.

Definition is_gap (s : string) : bool :=
  negb (String.eqb s EmptyString) && string_forall is_separator s.

(** The line that writes each token followed by its gap. *)
Fixpoint join_line (pieces : list (string * string)) : string :=
  match pieces with
  | [] => EmptyString
  | (tok, gap) :: rest => tok +:+ gap +:+ join_line rest
  end.

(** The token a line may end with, no gap after it. *)
Definition last_token (s : string) : list string :=
  if String.eqb s EmptyString then [] else [s].

(** The scan of an argument stops where the buffer is at its end or at
    a separator. *)
Definition stops_scan (s : string) : bool :=
  match s with
  | EmptyString => true
  | String c _ => is_nul c || is_separator c
  end.

(** *** Stack frames (the reference the unwinder is compared with) *)

(** A frame of the call stack: its address, the return address one word
    above it, the five words above that, and the saved frame pointer at
    its base. *)
Record frame := mkFrame {
  frame_pointer : Z;
  return_address : Z;
  saved_args : list Z;
  saved_frame_pointer : Z;
}.

Definition word_above (mem : gmap Z Z) (ebp : Z) (n : Z) : option Z :=
  mem !! to_uint32 (ebp + 4 * n).

Definition frame_at (mem : gmap Z Z) (ebp : Z) : option frame :=
  saved ← mem !! ebp;
  eip ← word_above mem ebp 1;
  a1 ← word_above mem ebp 2;
  a2 ← word_above mem ebp 3;
  a3 ← word_above mem ebp 4;
  a4 ← word_above mem ebp 5;
  a5 ← word_above mem ebp 6;
  Some (mkFrame ebp eip [a1; a2; a3; a4; a5] saved).



(** The return address and the five argument words above a frame
    pointer, when all six are readable. *)
Definition words_above (mem : gmap Z Z) (ebp : Z) : option (Z * list Z) :=
  eip ← word_above mem ebp 1;
  a1 ← word_above mem ebp 2;
  a2 ← word_above mem ebp 3;
  a3 ← word_above mem ebp 4;
  a4 ← word_above mem ebp 5;
  a5 ← word_above mem ebp 6;
  Some (eip, [a1; a2; a3; a4; a5]).

(** The record the unwinder prints for a frame. *)
Definition frame_record `{KernelServices} (fr : frame) : list console_event :=
  let info := debuginfo_eip (return_address fr) in
  [ Cprintf "ebp %08x eip %08x args %08x %08x %08x %08x %08x\n"
      (ArgInt (frame_pointer fr) :: ArgInt (return_address fr)
       :: map ArgInt (saved_args fr));
    Cprintf "\t%s:%d: %.*s+%d\n"
      [ArgStr (eip_file info); ArgInt (eip_line info);
       ArgInt (eip_fn_namelen info); ArgStr (eip_fn_name info);
       ArgInt (to_uint32 (return_address fr - eip_fn_addr info))] ].

(** *** Page ranges (the reference the inspector is compared with) *)

Fixpoint pages_from (n : nat) (va : Z) : list Z :=
  match n with
  | O => []
  | S n => va :: pages_from n (va + PGSIZE)
  end.

(** The addresses [begin], [begin + PGSIZE], ... up to [end']. *)
Definition range_pages (begin end' : Z) : list Z :=
  if begin <=? end'
  then pages_from (S (Z.to_nat ((end' - begin) / PGSIZE))) begin
  else [].

(** The leaf entry of a virtual address in a page directory. *)
Definition leaf_entry (pd : gmap Z (gmap Z Z)) (va : Z) : option Z :=
  pte_at pd (PDX va, PTX va).

(** What the inspector prints for a page whose leaf entry is [pte]. *)
Definition page_report (va pte : Z) : list console_event :=
  [ Cprintf "Virtual address : 0x%08x " [ArgInt va];
    if negb (Z.land pte PTE_P =? 0)
    then Cprintf "Physical page : 0x%08x PTE_P %d PTE_U %d PTE_W %d\n"
           [ArgInt (PTE_ADDR pte); ArgInt (flag pte PTE_P);
            ArgInt (flag pte PTE_U); ArgInt (flag pte PTE_W)]
    else Cprintf "is not mapped!\n" [] ].

(** *** Runs of the console loop *)

(** The loop reads all of [input] from state [k] and is still running in
    state [k']: every line dispatched returned a value that is not
    negative. *)
Inductive survives {F} (invoke : F -> handler) (table : list (Command F))
    (tf : Z) : list (option string) -> kernel -> kernel -> Prop :=
  | survives_nil k : survives invoke table tf [] k k
  | survives_null input k k' :
      survives invoke table tf input k k' ->
      survives invoke table tf (None :: input) k k'
  | survives_line buf input k r k1 k' :
      runcmd_in invoke table buf tf k = (Done r, k1) ->
      0 <= r ->
      survives invoke table tf input k1 k' ->
      survives invoke table tf (Some buf :: input) k k'.

(** ** A kernel to run the monitor on *)

Definition sample_services : KernelServices := {|
  debuginfo_eip := fun addr => mkEipdebuginfo "<unknown>" 0 "<unknown>" 9 addr;
  KADDR := fun pa => if pa <? 268435456 then Some (to_uint32 (pa + 4026531840)) else None;
  PADDR := fun kva => if kva <? 4026531840 then None else Some (kva - 4026531840);
  KERNBASE := 4026531840;
  _start := 1048588;
  entry := 4027580428;
  etext := 4027588000;
  edata := 4027650048;
  end_ := 4027652704;
|}.

Definition empty_kernel : kernel := Kernel [] ∅ ∅ O 0.

(** A stack of three frames. *)
Definition sample_stack : kernel :=
  Kernel []
    (list_to_map
       [ (1000, 2000); (1004, 11); (1008, 1); (1012, 2); (1016, 3);
         (1020, 4); (1024, 5);
         (2000, 3000); (2004, 22); (2008, 6); (2012, 7); (2016, 8);
         (2020, 9); (2024, 10);
         (3000, 0); (3004, 33); (3008, 0); (3012, 0); (3016, 0);
         (3020, 0); (3024, 0) ])
    ∅ O 1000.

Definition sample_frames : list frame :=
  [ mkFrame 1000 11 [1; 2; 3; 4; 5] 2000;
    mkFrame 2000 22 [6; 7; 8; 9; 10] 3000;
    mkFrame 3000 33 [0; 0; 0; 0; 0] 0 ].

(** A page directory with the table of the first 4MB, all entries
    clear, and nothing left to allocate. *)
Definition sample_tables : kernel := Kernel [] ∅ {[ 0 := ∅ ]} O 0.

(** An empty page directory and one page left to allocate. *)
Definition sample_one_free_page : kernel := Kernel [] ∅ ∅ 1 0.

(** A table with an entry that leaves the monitor. *)
Definition quit_table : list (Command handler) :=
  [ mkCommand "quit" "Leave the monitor" (fun _ _ _ => mret (-1));
    mkCommand "nop" "Do nothing" (fun _ _ _ => mret 1) ].

(** ** Further notions for the properties of Part III *)

(** The line [mon_help] prints for a table entry. *)
Definition help_line {F} (c : Command F) : console_event :=
  Cprintf "%s - %s\n" [ArgStr (name c); ArgStr (desc c)].

(** The saved frame pointers lead from [ebp] through the listed frames,
    innermost first, to the frame pointer [ebp'], which need not be the
    sentinel. *)
Inductive frame_walk (mem : gmap Z Z) : Z -> list frame -> Z -> Prop :=
  | walk_here ebp : frame_walk mem ebp [] ebp
  | walk_frame ebp fr frames ebp' :
      ebp <> 0 ->
      frame_at mem ebp = Some fr ->
      frame_walk mem (saved_frame_pointer fr) frames ebp' ->
      frame_walk mem ebp (fr :: frames) ebp'.

(** From [k] to [k'] the page directory has at most gained empty tables:
    every slot is as it was, or was absent and now holds an empty
    table. *)
Definition tables_grow (k k' : kernel) : Prop :=
  forall d, kern_pgdir k' !! d = kern_pgdir k !! d \/
            (kern_pgdir k !! d = None /\ kern_pgdir k' !! d = Some ∅).

(** The page table of a directory slot, empty where the slot is absent. *)
Definition table_of (pd : gmap Z (gmap Z Z)) (d : Z) : gmap Z Z :=
  default ∅ (pd !! d).

(** The pages left once the allocating walk of [va] has been made. *)
Definition free_after_walk (k : kernel) (va : Z) : nat :=
  match kern_pgdir k !! PDX va with
  | Some _ => free_pages k
  | None => pred (free_pages k)
  end.

(** What the two assignments of [setPerm] leave in an entry that held
    [old]. *)
Definition perm_written (old bits : Z) : Z :=
  Z.lor (Z.land old (Z.lnot 4095)) bits.

(** From address [cur] on, consecutive words are readable: the listed
    pairs are, for each word in turn, what [shown] gives for its address
    and the value it holds. *)
Inductive dumped (shown : Z -> option Z) (mem : gmap Z Z)
  : Z -> list (Z * Z) -> Prop :=
  | dumped_nil cur : dumped shown mem cur []
  | dumped_cons cur a v rest :
      shown cur = Some a ->
      mem !! cur = Some v ->
      dumped shown mem (cur + 4) rest ->
      dumped shown mem cur ((a, v) :: rest).

(** The line the memory dumper prints for a word. *)
Definition dump_line (e : Z * Z) : console_event :=
  Cprintf "Value of 0x%08x is 0x%08x\n" [ArgInt e.1; ArgInt e.2].

(** An output event that is a formatted line, not the dump of a trap
    frame. *)
Definition is_line (e : console_event) : bool :=
  match e with
  | Cprintf _ _ => true
  | PrintTrapframe _ => false
  end.

(** From [k] to [k'] the console has gained formatted lines and no dump
    of a trap frame. *)
Definition prints_lines (k k' : kernel) : Prop :=
  exists more, console k' = console k ++ more /\ forallb is_line more = true.

(** From [k] to [k'] the page directory and the allocator are as they
    were, and the console has gained formatted lines only. *)
Definition keeps_tables (k k' : kernel) : Prop :=
  kern_pgdir k' = kern_pgdir k /\ free_pages k' = free_pages k /\
  prints_lines k k'.

(** Kernel code relates every state it starts in to the state it
    reaches, however it ends. *)
Definition preserves (R : kernel -> kernel -> Prop) {A} (m : M A) : Prop :=
  forall k, R k (m k).2.

(** The handlers that call the allocating page-table walk. *)
Definition writes_tables (f : mon_func) : bool :=
  match f with
  | fn_mon_showmappings | fn_setPerm => true
  | _ => false
  end.

(** A result of [readline] that holds no token: the null pointer, or a
    line of separators only. *)
Definition is_blank_line (line : option string) : bool :=
  match line with
  | None => true
  | Some buf => string_forall is_separator buf
  end.

(** What [monitor] prints before it reads the first line. *)
Definition banner (tf : Z) : list console_event :=
  [ Cprintf "Welcome to the JOS kernel monitor!\n" [];
    Cprintf "Type 'help' for a list of commands.\n" [] ]
  ++ (if tf =? 0 then [] else [PrintTrapframe tf]).

(** A frame whose saved frame pointer is its own address. *)
Definition sample_loop_stack : kernel :=
  Kernel []
    (list_to_map
       [ (1000, 1000); (1004, 11); (1008, 1); (1012, 2); (1016, 3);
         (1020, 4); (1024, 5) ])
    ∅ O 1000.

(** A frame whose saved frame pointer leads to a frame of which the six
    words above the base are readable and the base is not. *)
Definition sample_broken_stack : kernel :=
  Kernel []
    (list_to_map
       [ (1000, 2000); (1004, 11); (1008, 1); (1012, 2); (1016, 3);
         (1020, 4); (1024, 5);
         (2004, 22); (2008, 6); (2012, 7); (2016, 8); (2020, 9);
         (2024, 10) ])
    ∅ O 1000.


(** Three words at [0x10] and two at the kernel alias of [0x10]. *)
Definition sample_words : kernel :=
  Kernel []
    (list_to_map
       [ (16, 111); (20, 222); (24, 333);
         (4026531856, 444); (4026531860, 555) ])
    ∅ O 0.

(** A page directory with all its 1024 tables, every entry clear. *)
Definition sample_full_tables : kernel :=
  Kernel [] ∅ (gset_to_gmap ∅ (list_to_set (seqZ 0 1024))) O 0.

(* ===================================================================== *)
(** * Part II.  Properties                                                *)
(* ===================================================================== *)

Example convert_dec : convert "4096" = 4096.
Proof. reflexivity. Qed.

Example convert_hex : convert "0x1000" = 4096.
Proof. reflexivity. Qed.

Example convert_bang : convert "!" = 2 ^ 32 - 15.
Proof. reflexivity. Qed.

(** ** Machine arithmetic *)

Lemma to_uint32_to_int z : to_uint32 (to_int z) = to_uint32 z.
Proof.
  unfold to_uint32, to_int.
  rewrite Zminus_mod, Zmod_mod, <- Zminus_mod.
  f_equal. lia.
Qed.

Lemma to_uint32_idem z : to_uint32 (to_uint32 z) = to_uint32 z.
Proof. unfold to_uint32. apply Zmod_mod. Qed.

Lemma to_uint32_add_l a b : to_uint32 (to_uint32 a + b) = to_uint32 (a + b).
Proof. unfold to_uint32. apply Zplus_mod_idemp_l. Qed.

Lemma to_uint32_mul_l a b : to_uint32 (to_uint32 a * b) = to_uint32 (a * b).
Proof. unfold to_uint32. apply Zmult_mod_idemp_l. Qed.

Lemma to_uint32_range z : 0 <= to_uint32 z < 2 ^ 32.
Proof. unfold to_uint32. apply Z.mod_pos_bound. lia. Qed.

Lemma to_uint32_small z : 0 <= z < 2 ^ 32 -> to_uint32 z = z.
Proof. unfold to_uint32. apply Z.mod_small. Qed.

Lemma to_uint32_add_cong a a' d :
  to_uint32 a = to_uint32 a' -> to_uint32 (a + d) = to_uint32 (a' + d).
Proof. intros H. rewrite <- to_uint32_add_l, H. apply to_uint32_add_l. Qed.

Lemma to_uint32_mul_cong a a' b :
  to_uint32 a = to_uint32 a' -> to_uint32 (a * b) = to_uint32 (a' * b).
Proof. intros H. rewrite <- to_uint32_mul_l, H. apply to_uint32_mul_l. Qed.

(** One step of the accumulation, seen through the final cast. *)
Lemma to_uint32_accumulate res base d :
  to_uint32 (to_int (to_int (res * base) + d)) = to_uint32 (res * base + d).
Proof.
  rewrite to_uint32_to_int, <- to_uint32_add_l, to_uint32_to_int.
  apply to_uint32_add_l.
Qed.

(** ** convert *)

Lemma convert_loop_cons base ch rest res :
  is_nul ch = false ->
  convert_loop base (String ch rest) res =
  convert_loop base rest (to_int (to_int (res * base) + code_digit ch)).
Proof.
  intros Hnul. cbn [convert_loop]. rewrite Hnul. unfold code_digit.
  destruct (char_val ch <=? char_val "9"); reflexivity.
Qed.

Lemma append_nil_l s : EmptyString +:+ s = s.
Proof. reflexivity. Qed.

Lemma append_cons_l c s t : String c s +:+ t = String c (s +:+ t).
Proof. reflexivity. Qed.

Lemma convert_loop_snoc base p ch res :
  string_forall (fun c => negb (is_nul c)) p = true ->
  is_nul ch = false ->
  convert_loop base (p +:+ String ch EmptyString) res =
  to_int (to_int (convert_loop base p res * base) + code_digit ch).
Proof.
  intros Hp Hch. revert res Hp.
  induction p as [|c p IH]; intros res Hp.
  - rewrite append_nil_l, convert_loop_cons by assumption. reflexivity.
  - cbn [string_forall] in Hp. apply andb_prop in Hp as [Hc Hp].
    apply negb_true_iff in Hc.
    rewrite append_cons_l, !convert_loop_cons by assumption.
    apply IH, Hp.
Qed.

(** The cast of the loop's result depends on the accumulator only through
    its cast. *)
Lemma convert_loop_uint32 base s res res' :
  to_uint32 res = to_uint32 res' ->
  to_uint32 (convert_loop base s res) = to_uint32 (convert_loop base s res').
Proof.
  revert res res'. induction s as [|c s IH]; intros res res' H.
  - exact H.
  - cbn [convert_loop]. destruct (is_nul c); [exact H|].
    destruct (char_val c <=? char_val "9"); apply IH;
      rewrite !to_uint32_accumulate;
      apply to_uint32_add_cong, to_uint32_mul_cong, H.
Qed.

Lemma convert_unfold c :
  convert c = to_uint32 (convert_loop (base_of c) (numeral_body c) 0).
Proof.
  unfold convert, base_of, numeral_body.
  destruct (has_hex_prefix c); reflexivity.
Qed.

Lemma hex_digit_code_digit c :
  is_lower_hex_digit c = true -> code_digit c = digit_value c /\ is_nul c = false.
Proof.
  destruct c as [[] [] [] [] [] [] [] []]; intros H;
    try discriminate H; split; reflexivity.
Qed.

Lemma decimal_digit_is_hex c :
  is_decimal_digit c = true -> is_lower_hex_digit c = true.
Proof. unfold is_lower_hex_digit. intros ->. reflexivity. Qed.

Lemma convert_loop_numeral base s res :
  string_forall is_lower_hex_digit s = true ->
  to_uint32 (convert_loop base s res) =
  to_uint32 (res * base ^ Z.of_nat (String.length s) + numeral_value base s).
Proof.
  revert res. induction s as [|c s IH]; intros res Hs.
  - cbn. f_equal. lia.
  - cbn [string_forall] in Hs. apply andb_prop in Hs as [Hc Hs].
    destruct (hex_digit_code_digit c Hc) as [Hd Hnul].
    rewrite convert_loop_cons by exact Hnul.
    rewrite (convert_loop_uint32 base s _ (res * base + code_digit c))
      by (rewrite to_uint32_accumulate; reflexivity).
    rewrite IH by exact Hs. rewrite Hd.
    cbn [String.length numeral_value].
    rewrite Nat2Z.inj_succ, Z.pow_succ_r by lia.
    f_equal. ring.
Qed.

Lemma string_forall_impl (p q : ascii -> bool) s :
  (forall c, p c = true -> q c = true) ->
  string_forall p s = true -> string_forall q s = true.
Proof.
  intros Hpq. induction s as [|c s IH]; [reflexivity|].
  cbn [string_forall]. intros H. apply andb_prop in H as [Hc Hs].
  rewrite (Hpq c Hc), (IH Hs). reflexivity.
Qed.

Lemma decimal_token_no_prefix s :
  string_forall is_decimal_digit s = true -> has_hex_prefix s = false.
Proof.
  destruct s as [|a [|b s]]; try reflexivity.
  cbn [string_forall has_hex_prefix]. intros Hs.
  apply andb_prop in Hs as [_ Hs]. apply andb_prop in Hs as [Hb _].
  destruct (Ascii.eqb_spec b "x") as [->|]; [discriminate Hb|].
  apply andb_false_r.
Qed.

Lemma snoc_hex_prefix p ch :
  ~ (p = String "0" EmptyString /\ ch = "x"%char) ->
  has_hex_prefix (p +:+ String ch EmptyString) = has_hex_prefix p /\
  numeral_body (p +:+ String ch EmptyString) =
  numeral_body p +:+ String ch EmptyString.
Proof.
  intros Hne. unfold numeral_body.
  destruct p as [|a [|b p]].
  - split; reflexivity.
  - rewrite append_cons_l, append_nil_l. cbn [has_hex_prefix].
    destruct (Ascii.eqb_spec a "0") as [->|]; [|split; reflexivity].
    destruct (Ascii.eqb_spec ch "x") as [->|]; [|split; reflexivity].
    exfalso. apply Hne. split; reflexivity.
  - rewrite !append_cons_l. cbn [has_hex_prefix skip_prefix].
    split; [reflexivity|].
    destruct (Ascii.eqb a "0" && Ascii.eqb b "x"); reflexivity.
Qed.

Lemma numeral_body_no_nul p :
  string_forall (fun c => negb (is_nul c)) p = true ->
  string_forall (fun c => negb (is_nul c)) (numeral_body p) = true.
Proof.
  unfold numeral_body. destruct (has_hex_prefix p); [|exact id].
  destruct p as [|a [|b p]]; try exact id.
  cbn [string_forall skip_prefix]. intros H.
  apply andb_prop in H as [_ H]. apply andb_prop in H as [_ H]. exact H.
Qed.

(** C4 (as amended).  Appending a character [ch] to a token [p] multiplies
    the parsed value by the base and adds the digit of [ch], in both bases,
    modulo the machine word; the digit is [ch - 'a' + 10] exactly for the
    characters whose code is above '9', and [ch - '0'] for every character
    whose code is at most '9', decimal digit or not (punctuation below '0'
    included). *)
Theorem convert_digit_contribution (p : string) (ch : ascii) :
  string_forall (fun c => negb (is_nul c)) p = true ->
  is_nul ch = false ->
  ~ (p = String "0" EmptyString /\ ch = "x"%char) ->
  convert (p +:+ String ch EmptyString) =
    to_uint32 (convert p * base_of p + code_digit ch)
  /\ (char_val "9" < char_val ch ->
      code_digit ch = char_val ch - char_val "a" + 10)
  /\ (char_val ch <= char_val "9" ->
      code_digit ch = char_val ch - char_val "0").
Proof.
  intros Hp Hch Hne. split; [|split].
  - destruct (snoc_hex_prefix p ch Hne) as [Hpre Hbody].
    rewrite !convert_unfold. unfold base_of at 1. rewrite Hpre, Hbody.
    fold (base_of p).
    rewrite convert_loop_snoc by (auto using numeral_body_no_nul).
    rewrite to_uint32_accumulate.
    symmetry. apply to_uint32_add_cong, to_uint32_mul_cong, to_uint32_idem.
  - intros H. unfold code_digit.
    destruct (Z.leb_spec (char_val ch) (char_val "9")); [lia|reflexivity].
  - intros H. unfold code_digit.
    destruct (Z.leb_spec (char_val ch) (char_val "9")); [reflexivity|lia].
Qed.

Lemma convert_digit_contribution_witness :
  convert ("0x1" +:+ String "!" EmptyString) =
    to_uint32 (convert "0x1" * base_of "0x1" + code_digit "!")
  /\ code_digit "!" = char_val "!" - char_val "0"
  /\ code_digit "g" = char_val "g" - char_val "a" + 10.
Proof.
  split; [|split].
  - apply (convert_digit_contribution "0x1" "!"); [reflexivity|reflexivity|].
    intros [H _]. discriminate H.
  - apply (convert_digit_contribution "0x1" "!"); [reflexivity|reflexivity| |].
    + intros [H _]. discriminate H.
    + vm_compute. discriminate.
  - apply (convert_digit_contribution "" "g"); [reflexivity|reflexivity| |].
    + intros [H _]. discriminate H.
    + vm_compute. reflexivity.
Defined.

(** C4 (as stated) fails: '!' is not a decimal digit, yet in either base
    the parser adds ['!' - '0'] for it, not ['!' - 'a' + 10]. *)
Lemma convert_punctuation_counterexample :
  is_decimal_digit "!" = false /\
  convert "!" <> to_uint32 (0 * 10 + spec_digit "!") /\
  convert "0x!" <> to_uint32 (0 * 16 + spec_digit "!").
Proof. split; [reflexivity|]. split; vm_compute; discriminate. Qed.

(** C5.  A token of decimal digits parses to its decimal value, and [0x]
    followed by decimal digits and lowercase hex letters parses to its
    hexadecimal value, both modulo 2^32. *)
Theorem convert_valid_numerals (s : string) :
  (string_forall is_decimal_digit s = true ->
   convert s = to_uint32 (numeral_value 10 s)) /\
  (string_forall is_lower_hex_digit s = true ->
   convert ("0x" +:+ s) = to_uint32 (numeral_value 16 s)).
Proof.
  split; intros Hs.
  - unfold convert. rewrite (decimal_token_no_prefix s Hs).
    rewrite convert_loop_numeral
      by (eapply string_forall_impl; [apply decimal_digit_is_hex|exact Hs]).
    f_equal.
  - change (convert ("0x" +:+ s)) with (to_uint32 (convert_loop 16 s 0)).
    rewrite convert_loop_numeral by exact Hs. f_equal.
Qed.

Lemma convert_valid_numerals_witness :
  convert "4096" = to_uint32 (numeral_value 10 "4096") /\
  convert ("0x" +:+ "fffff000") = to_uint32 (numeral_value 16 "fffff000").
Proof.
  split.
  - apply (proj1 (convert_valid_numerals "4096")). reflexivity.
  - apply (proj2 (convert_valid_numerals "fffff000")). reflexivity.
Defined.

(** Every 32-bit word is the value of a token, so that what is proved of
    the commands for all tokens holds for all addresses and values. *)
Lemma hex_char_digit d :
  0 <= d < 16 -> is_lower_hex_digit (hex_char d) = true /\ digit_value (hex_char d) = d.
Proof.
  intros Hd.
  assert (Hcases : d = 0 \/ d = 1 \/ d = 2 \/ d = 3 \/ d = 4 \/ d = 5 \/ d = 6 \/ d = 7
          \/ d = 8 \/ d = 9 \/ d = 10 \/ d = 11 \/ d = 12 \/ d = 13 \/ d = 14 \/ d = 15) by lia.
  repeat (destruct Hcases as [->|Hcases]; [split; reflexivity|]).
  subst. split; reflexivity.
Qed.

Lemma hex_digits_spec n : forall z acc,
  0 <= z ->
  string_forall is_lower_hex_digit acc = true ->
  string_forall is_lower_hex_digit (hex_digits n z acc) = true /\
  String.length (hex_digits n z acc) = (n + String.length acc)%nat /\
  numeral_value 16 (hex_digits n z acc) =
    (z mod 16 ^ Z.of_nat n) * 16 ^ Z.of_nat (String.length acc) + numeral_value 16 acc.
Proof.
  induction n as [|n IH]; intros z acc Hz Hacc.
  - cbn [hex_digits]. rewrite Z.pow_0_r, Z.mod_1_r. auto.
  - cbn [hex_digits].
    destruct (hex_char_digit (z mod 16)) as [Hhex Hval]; [apply Z.mod_pos_bound; lia|].
    destruct (IH (z / 16) (String (hex_char (z mod 16)) acc)) as (Hall & Hlen & Hnum).
    + apply Z.div_pos; lia.
    + cbn [string_forall]. rewrite Hhex, Hacc. reflexivity.
    + split; [exact Hall|]. split; [rewrite Hlen; cbn [String.length]; lia|].
      rewrite Hnum. cbn [numeral_value String.length]. rewrite Hval.
      rewrite !Nat2Z.inj_succ, !Z.pow_succ_r by lia.
      rewrite Z.rem_mul_r by lia. ring.
Qed.

(** X1.  The parser reads back every 32-bit word from [0x] followed by
    its eight lowercase hexadecimal digits. *)
Lemma convert_to_hex z : 0 <= z < 2 ^ 32 -> convert (to_hex z) = z.
Proof.
  intros Hz.
  destruct (hex_digits_spec 8 z EmptyString) as (Hall & _ & Hnum); [lia|reflexivity|].
  unfold to_hex.
  change (convert ("0x" +:+ hex_digits 8 z EmptyString))
    with (to_uint32 (convert_loop 16 (hex_digits 8 z EmptyString) 0)).
  rewrite convert_loop_numeral by exact Hall.
  rewrite Z.mul_0_l, Z.add_0_l, Hnum.
  cbn [String.length numeral_value]. change (16 ^ Z.of_nat 8) with (2 ^ 32).
  rewrite Z.mod_small by lia. rewrite Z.pow_0_r, Z.mul_1_r, Z.add_0_r.
  apply to_uint32_small, Hz.
Qed.

(** ** The tokenizer *)

Lemma strchr_WHITESPACE c :
  strchr WHITESPACE c = is_separator c || is_nul c.
Proof. destruct c as [[] [] [] [] [] [] [] []]; reflexivity. Qed.

Lemma separator_not_nul c : is_separator c = true -> is_nul c = false.
Proof. destruct c as [[] [] [] [] [] [] [] []]; intros H; try reflexivity; discriminate H. Qed.

Lemma char_kind_cases c : char_kind c.
Proof.
  destruct (is_nul c) eqn:Hn, (is_separator c) eqn:Hs.
  - apply separator_not_nul in Hs. congruence.
  - apply kind_nul; assumption.
  - apply kind_separator; assumption.
  - apply kind_plain; assumption.
Qed.

Ltac char_cases c :=
  destruct (char_kind_cases c) as [?Hnul ?Hsep|?Hnul ?Hsep|?Hnul ?Hsep].

Lemma gobble_whitespace_cons c rest :
  gobble_whitespace (String c rest) =
  if is_separator c then gobble_whitespace rest else String c rest.
Proof.
  cbn [gobble_whitespace]. rewrite strchr_WHITESPACE.
  char_cases c; rewrite Hnul, Hsep; reflexivity.
Qed.

Lemma scan_arg_cons c rest :
  scan_arg (String c rest) =
  if is_nul c || is_separator c then (EmptyString, String c rest)
  else (String c (scan_arg rest).1, (scan_arg rest).2).
Proof.
  cbn [scan_arg]. rewrite strchr_WHITESPACE.
  char_cases c; rewrite Hnul, Hsep; cbn; try reflexivity.
  destruct (scan_arg rest); reflexivity.
Qed.

Lemma count_tokens_gobble buf :
  count_tokens false (gobble_whitespace buf) = count_tokens false buf.
Proof.
  induction buf as [|c buf IH]; [reflexivity|].
  rewrite gobble_whitespace_cons. cbn [count_tokens].
  char_cases c; rewrite ?Hnul, Hsep; cbn [count_tokens]; rewrite ?Hnul, ?Hsep;
    auto.
Qed.

Lemma count_tokens_scan buf :
  count_tokens false (scan_arg buf).2 = count_tokens true buf.
Proof.
  induction buf as [|c buf IH]; [reflexivity|].
  rewrite scan_arg_cons. cbn [count_tokens].
  char_cases c; rewrite Hnul, Hsep; cbn [orb snd count_tokens];
    rewrite ?Hnul, ?Hsep; auto.
Qed.

(** After the whitespace is passed over, the buffer is at its terminator
    or at the first character of an argument. *)
Lemma gobble_whitespace_stops buf :
  at_terminator (gobble_whitespace buf) = true /\
    count_tokens false buf = O
  \/ at_terminator (gobble_whitespace buf) = false /\
    count_tokens false buf =
      S (count_tokens false (scan_arg (gobble_whitespace buf)).2).
Proof.
  induction buf as [|c buf IH]; [left; split; reflexivity|].
  rewrite gobble_whitespace_cons. cbn [count_tokens].
  char_cases c; rewrite Hnul, Hsep.
  - left. cbn [at_terminator]. auto.
  - exact IH.
  - right. cbn [at_terminator]. split; [assumption|].
    rewrite scan_arg_cons, Hnul, Hsep. cbn [orb snd].
    rewrite count_tokens_scan. reflexivity.
Qed.

(** The parsing loop succeeds exactly when the arguments fit the free
    slots, and then it appends one argument per token. *)
Lemma parse_args_count room : forall buf argv,
  ((count_tokens false buf <= room)%nat ->
   exists toks, parse_args room buf argv = Some (argv ++ toks) /\
                length toks = count_tokens false buf) /\
  ((room < count_tokens false buf)%nat -> parse_args room buf argv = None).
Proof.
  induction room as [|room IH]; intros buf argv;
    destruct (gobble_whitespace_stops buf) as [[Hend Hcount]|[Hend Hcount]];
    cbn [parse_args]; rewrite Hend, Hcount.
  - split; [|lia]. intros _. exists []. rewrite app_nil_r. auto.
  - split; [lia|reflexivity].
  - split; [|lia]. intros _. exists []. rewrite app_nil_r. auto.
  - destruct (scan_arg (gobble_whitespace buf)) as [tok rest] eqn:Hscan.
    cbn [snd]. destruct (IH rest (argv ++ [tok])) as [Hfit Hover].
    split; intros Hn.
    + destruct Hfit as (toks & Hp & Hlen); [lia|].
      exists (tok :: toks). rewrite Hp, <- app_assoc. cbn. auto.
    + apply Hover. lia.
Qed.

Lemma count_tokens_whitespace buf :
  string_forall is_separator buf = true -> count_tokens false buf = O.
Proof.
  induction buf as [|c buf IH]; [reflexivity|].
  cbn [string_forall count_tokens]. intros Hb.
  apply andb_prop in Hb as [Hc Hb].
  rewrite (separator_not_nul c Hc), Hc. auto.
Qed.

Lemma append_nil_r s : s +:+ EmptyString = s.
Proof.
  induction s as [|c s IH]; [reflexivity|].
  rewrite append_cons_l, IH. reflexivity.
Qed.

Lemma append_assoc s t u : (s +:+ t) +:+ u = s +:+ (t +:+ u).
Proof.
  induction s as [|c s IH]; [reflexivity|].
  rewrite !append_cons_l, IH. reflexivity.
Qed.

Lemma gobble_whitespace_separators ws s :
  string_forall is_separator ws = true ->
  gobble_whitespace (ws +:+ s) = gobble_whitespace s.
Proof.
  induction ws as [|c ws IH]; [reflexivity|].
  cbn [string_forall]. intros Hws. apply andb_prop in Hws as [Hc Hws].
  rewrite append_cons_l, gobble_whitespace_cons, Hc. auto.
Qed.

Lemma gobble_whitespace_token tok s :
  is_token tok = true ->
  gobble_whitespace (tok +:+ s) = tok +:+ s /\
  at_terminator (tok +:+ s) = false.
Proof.
  unfold is_token. destruct tok as [|c tok]; [discriminate|].
  cbn [String.eqb negb andb string_forall]. intros Htok.
  apply andb_prop in Htok as [Hc _]. unfold is_plain in Hc.
  apply andb_prop in Hc as [Hn Hs].
  apply negb_true_iff in Hn, Hs.
  rewrite append_cons_l, gobble_whitespace_cons, Hs. cbn [at_terminator]. auto.
Qed.

Lemma scan_arg_stops s : stops_scan s = true -> scan_arg s = (EmptyString, s).
Proof.
  destruct s as [|c s]; [reflexivity|]. cbn [stops_scan]. intros Hc.
  rewrite scan_arg_cons, Hc. reflexivity.
Qed.

Lemma scan_arg_plain tok s :
  string_forall is_plain tok = true -> stops_scan s = true ->
  scan_arg (tok +:+ s) = (tok, s).
Proof.
  intros Htok Hs. induction tok as [|c tok IH].
  - apply scan_arg_stops, Hs.
  - cbn [string_forall] in Htok. apply andb_prop in Htok as [Hc Htok].
    unfold is_plain in Hc. apply andb_prop in Hc as [Hn Hp].
    apply negb_true_iff in Hn, Hp.
    rewrite append_cons_l, scan_arg_cons, Hn, Hp, (IH Htok). reflexivity.
Qed.

Lemma stops_scan_gap gap s : is_gap gap = true -> stops_scan (gap +:+ s) = true.
Proof.
  unfold is_gap. destruct gap as [|c gap]; [discriminate|].
  cbn [String.eqb negb andb string_forall]. intros Hg.
  apply andb_prop in Hg as [Hc _]. rewrite append_cons_l. cbn [stops_scan].
  rewrite Hc. apply orb_true_r.
Qed.

Lemma parse_args_separators room ws s argv :
  string_forall is_separator ws = true ->
  parse_args room (ws +:+ s) argv = parse_args room s argv.
Proof.
  intros Hws. destruct room; cbn [parse_args];
    rewrite (gobble_whitespace_separators ws s Hws); reflexivity.
Qed.

Lemma parse_args_token room tok s argv :
  is_token tok = true -> stops_scan s = true ->
  parse_args (S room) (tok +:+ s) argv = parse_args room s (argv ++ [tok]).
Proof.
  intros Htok Hs. cbn [parse_args].
  destruct (gobble_whitespace_token tok s Htok) as [-> ->].
  rewrite scan_arg_plain; [reflexivity| |exact Hs].
  unfold is_token in Htok. apply andb_prop in Htok as [_ Htok]. exact Htok.
Qed.

Lemma parse_args_end room argv : parse_args room EmptyString argv = Some argv.
Proof. destruct room; reflexivity. Qed.

Lemma parse_args_join pieces : forall room last argv,
  Forall (fun p => is_token p.1 = true /\ is_gap p.2 = true) pieces ->
  last = EmptyString \/ is_token last = true ->
  (length pieces + length (last_token last) <= room)%nat ->
  parse_args room (join_line pieces +:+ last) argv =
  Some (argv ++ map fst pieces ++ last_token last).
Proof.
  induction pieces as [|[tok gap] pieces IH]; intros room last argv Hp Hlast Hroom.
  - cbn [join_line map app]. rewrite append_nil_l.
    destruct Hlast as [->|Hlast].
    + rewrite parse_args_end. cbn. rewrite app_nil_r. reflexivity.
    + unfold last_token in *.
      destruct (String.eqb_spec last EmptyString) as [->|_]; [discriminate Hlast|].
      destruct room as [|room]; [cbn in Hroom; lia|].
      rewrite <- (append_nil_r last) at 1. 
      rewrite parse_args_token by (auto).
      rewrite parse_args_end. reflexivity.
  - apply Forall_cons in Hp as [[Htok Hgap] Hp]. cbn [fst snd] in *.
    destruct room as [|room]; [cbn in Hroom; lia|].
    cbn [join_line map]. rewrite !append_assoc.
    rewrite parse_args_token; [|exact Htok|apply stops_scan_gap, Hgap].
    rewrite parse_args_separators
      by (unfold is_gap in Hgap; apply andb_prop in Hgap as [_ Hgap]; exact Hgap).
    rewrite IH; [|exact Hp|exact Hlast|cbn in Hroom; lia].
    rewrite <- app_assoc. reflexivity.
Qed.

(** C6.  The tokenizer splits on tab, carriage return, newline and space:
    a line written as tokens separated by runs of these characters gives
    exactly the tokens, in order, when they are fewer than [MAXARGS], and
    so the line [a  b<TAB>c] gives a, b, c; a line of whitespace only, or
    an empty one, gives no argument and the command returns 0 with
    nothing printed; a line of [MAXARGS] tokens or more gives no argument
    list at all, prints the "Too many arguments" message and returns 0,
    whatever the command table. *)
Theorem tokenizer_splits_on_whitespace :
  parse_args (MAXARGS - 1)
    (String "a" (String " " (String " " (String "b"
       (String "009" (String "c" EmptyString)))))) []
  = Some ["a"; "b"; "c"]
  /\ (forall lead pieces last,
        string_forall is_separator lead = true ->
        Forall (fun p => is_token p.1 = true /\ is_gap p.2 = true) pieces ->
        last = EmptyString \/ is_token last = true ->
        (length pieces + length (last_token last) < MAXARGS)%nat ->
        parse_args (MAXARGS - 1) (lead +:+ join_line pieces +:+ last) []
        = Some (map fst pieces ++ last_token last))
  /\ (forall buf, string_forall is_separator buf = true ->
        parse_args (MAXARGS - 1) buf [] = Some [] /\
        forall F (invoke : F -> handler) table tf k,
          runcmd_in invoke table buf tf k = (Done 0, k))
  /\ (forall buf, (MAXARGS <= count_tokens false buf)%nat ->
        parse_args (MAXARGS - 1) buf [] = None /\
        forall F (invoke : F -> handler) table tf k,
          runcmd_in invoke table buf tf k =
          (Done 0,
           set_console
             (console k ++ [Cprintf "Too many arguments (max %d)\n" [ArgInt 16]])
             k)).
Proof.
  split; [reflexivity|]. split; [|split; intros buf Hbuf].
  - intros lead pieces last Hlead Hpieces Hlast Hroom.
    rewrite parse_args_separators by exact Hlead.
    apply (parse_args_join pieces (MAXARGS - 1) last []); try assumption.
    unfold MAXARGS in *. lia.
  - assert (Hp : parse_args (MAXARGS - 1) buf [] = Some []).
    { destruct (parse_args_count (MAXARGS - 1) buf []) as [Hfit _].
      destruct Hfit as (toks & Hp & Hlen).
      - rewrite count_tokens_whitespace by assumption. lia.
      - rewrite count_tokens_whitespace in Hlen by assumption.
        destruct toks; [exact Hp|discriminate Hlen]. }
    split; [exact Hp|]. intros. unfold runcmd_in. rewrite Hp. reflexivity.
  - assert (Hp : parse_args (MAXARGS - 1) buf [] = None).
    { apply parse_args_count. unfold MAXARGS in *. lia. }
    split; [exact Hp|]. intros. unfold runcmd_in. rewrite Hp. reflexivity.
Qed.

Lemma tokenizer_splits_on_whitespace_witness :
  parse_args (MAXARGS - 1)
    (String "009" EmptyString
     +:+ join_line [("showmappings", " "); ("0x1000", String "009" " ")]
     +:+ "0x2000") []
  = Some ["showmappings"; "0x1000"; "0x2000"]
  /\ (parse_args (MAXARGS - 1) (String " " (String "009" EmptyString)) [] = Some []
      /\ runcmd_in (fun f : handler => f) [] (String " " (String "009" EmptyString))
           0 empty_kernel = (Done 0, empty_kernel))
  /\ parse_args (MAXARGS - 1) "a b c d e f g h i j k l m n o p" [] = None.
Proof.
  destruct tokenizer_splits_on_whitespace as (_ & Hsplit & Hws & Hmany).
  split; [|split].
  - apply (Hsplit (String "009" EmptyString)
             [("showmappings", " "); ("0x1000", String "009" " ")] "0x2000").
    + reflexivity.
    + repeat constructor.
    + right. reflexivity.
    + vm_compute. lia.
  - destruct (Hws (String " " (String "009" EmptyString))) as [Hp Hr];
      [reflexivity|].
    split; [exact Hp|apply Hr].
  - apply (Hmany "a b c d e f g h i j k l m n o p"). vm_compute. lia.
Defined.

(** ** Running kernel code *)

Lemma bind_done {A B} (m : M A) (f : A -> M B) k a k1 :
  m k = (Done a, k1) -> (m ≫= f) k = f a k1.
Proof. intros Hm. unfold mbind, M_bind. rewrite Hm. reflexivity. Qed.

Lemma bind_inv {A B} (m : M A) (f : A -> M B) k b k' :
  (m ≫= f) k = (Done b, k') ->
  exists a k1, m k = (Done a, k1) /\ f a k1 = (Done b, k').
Proof.
  unfold mbind, M_bind. destruct (m k) as [[a| |] k1]; intros Hf;
    [eauto|discriminate Hf|discriminate Hf].
Qed.

Lemma load_done k addr v :
  memory k !! addr = Some v -> load addr k = (Done v, k).
Proof. intros Hv. unfold load. rewrite Hv. reflexivity. Qed.

Lemma set_console_id k : set_console (console k ++ []) k = k.
Proof. destruct k. unfold set_console. cbn. rewrite app_nil_r. reflexivity. Qed.

Lemma set_console_twice out out' k :
  set_console out' (set_console out k) = set_console out' k.
Proof. reflexivity. Qed.

Lemma cprintf_run fmt args k :
  cprintf fmt args k = (Done tt, set_console (console k ++ [Cprintf fmt args]) k).
Proof. reflexivity. Qed.

(** ** The stack unwinder *)

Section Unwinder.
Context `{KernelServices}.

Lemma frame_at_words mem ebp fr :
  frame_at mem ebp = Some fr ->
  exists eip a1 a2 a3 a4 a5 saved,
    fr = mkFrame ebp eip [a1; a2; a3; a4; a5] saved /\
    mem !! ebp = Some saved /\
    mem !! to_uint32 (ebp + 4) = Some eip /\
    mem !! to_uint32 (ebp + 8) = Some a1 /\
    mem !! to_uint32 (ebp + 12) = Some a2 /\
    mem !! to_uint32 (ebp + 16) = Some a3 /\
    mem !! to_uint32 (ebp + 20) = Some a4 /\
    mem !! to_uint32 (ebp + 24) = Some a5.
Proof.
  unfold frame_at, word_above.
  change (4 * 1) with 4; change (4 * 2) with 8; change (4 * 3) with 12;
    change (4 * 4) with 16; change (4 * 5) with 20; change (4 * 6) with 24.
  intros Hfr.
  destruct (mem !! ebp) as [saved|]; [|discriminate Hfr].
  destruct (mem !! to_uint32 (ebp + 4)) as [eip|]; [|discriminate Hfr].
  destruct (mem !! to_uint32 (ebp + 8)) as [a1|]; [|discriminate Hfr].
  destruct (mem !! to_uint32 (ebp + 12)) as [a2|]; [|discriminate Hfr].
  destruct (mem !! to_uint32 (ebp + 16)) as [a3|]; [|discriminate Hfr].
  destruct (mem !! to_uint32 (ebp + 20)) as [a4|]; [|discriminate Hfr].
  destruct (mem !! to_uint32 (ebp + 24)) as [a5|]; [|discriminate Hfr].
  injection Hfr as <-.
  exists eip, a1, a2, a3, a4, a5, saved. repeat split; reflexivity.
Qed.




End Unwinder.



(** ** The page table *)

Lemma pgdir_walk_present va create k pt :
  kern_pgdir k !! PDX va = Some pt ->
  pgdir_walk va create k = (Done (Some (PDX va, PTX va)), k).
Proof. intros Hpt. unfold pgdir_walk. rewrite Hpt. reflexivity. Qed.

Lemma pgdir_walk_fails va k :
  kern_pgdir k !! PDX va = None -> free_pages k = O ->
  pgdir_walk va true k = (Done None, k).
Proof. intros Hpt Hfree. unfold pgdir_walk. rewrite Hpt, Hfree. reflexivity. Qed.

Lemma pgdir_walk_allocates va k n :
  kern_pgdir k !! PDX va = None -> free_pages k = S n ->
  pgdir_walk va true k =
  (Done (Some (PDX va, PTX va)),
   set_pgdir (<[PDX va := ∅]> (kern_pgdir k)) n k).
Proof. intros Hpt Hfree. unfold pgdir_walk. rewrite Hpt, Hfree. reflexivity. Qed.

(** A walk that allocates succeeds when the table is there or a page is
    left; it leaves console and memory alone, and the leaf it points to
    holds what it held before, zero in a fresh table. *)
Lemma pgdir_walk_succeeds va k :
  is_Some (kern_pgdir k !! PDX va) \/ free_pages k <> O ->
  exists k1,
    pgdir_walk va true k = (Done (Some (PDX va, PTX va)), k1) /\
    console k1 = console k /\
    leaf_entry (kern_pgdir k1) va =
      Some (default 0 (leaf_entry (kern_pgdir k) va)).
Proof.
  intros Hok. unfold leaf_entry, pte_at. cbn [fst snd].
  destruct (kern_pgdir k !! PDX va) as [pt|] eqn:Hpt.
  - exists k. rewrite (pgdir_walk_present va true k pt Hpt), Hpt. auto.
  - destruct Hok as [[pt Hs]|Hfree]; [discriminate Hs|].
    destruct (free_pages k) as [|n] eqn:Hn; [contradiction|].
    eexists. rewrite (pgdir_walk_allocates va k n Hpt Hn).
    split; [reflexivity|]. split; [reflexivity|].
    cbn [kern_pgdir set_pgdir]. rewrite lookup_insert_eq, lookup_empty.
    reflexivity.
Qed.

Lemma read_pte_leaf va k v :
  leaf_entry (kern_pgdir k) va = Some v ->
  read_pte (Some (PDX va, PTX va)) k = (Done v, k).
Proof. unfold leaf_entry, read_pte. intros ->. reflexivity. Qed.

(** C2 (the code as it is).  When the walk of [setPerm] returns the null
    pointer, [setPerm] reports no error: it reads through the pointer, and
    the kernel faults with nothing printed and nothing written. *)
Theorem setPerm_null_walk (name a1 a2 : string) (rest : list string)
    (tf : Z) (k : kernel) :
  pgdir_walk (convert a1) true k = (Done None, k) ->
  setPerm 3 (name :: a1 :: a2 :: rest) tf k = (Crash, k).
Proof.
  intros Hwalk. unfold setPerm. cbn [Z.eqb Pos.eqb negb].
  rewrite (bind_done _ _ k a1 k) by reflexivity.
  rewrite (bind_done _ _ _ _ _ Hwalk).
  reflexivity.
Qed.

Lemma setPerm_null_walk_witness :
  setPerm 3 ["setPerm"; "0x1000"; "0x7"] 0 empty_kernel = (Crash, empty_kernel).
Proof. apply (setPerm_null_walk "setPerm" "0x1000" "0x7" [] 0 empty_kernel). reflexivity. Defined.

(** ** The address-space inspector *)

Lemma range_pages_nil i e : e < i -> range_pages i e = [].
Proof.
  intros Hlt. unfold range_pages.
  destruct (Z.leb_spec i e); [lia|reflexivity].
Qed.

Lemma range_pages_cons i e :
  i <= e -> range_pages i e = i :: range_pages (i + PGSIZE) e.
Proof.
  intros Hle. unfold range_pages at 1.
  destruct (Z.leb_spec i e); [|lia].
  cbn [pages_from]. f_equal.
  unfold range_pages, PGSIZE.
  destruct (Z.leb_spec (i + 4096) e) as [Hnext|Hlast].
  - replace (e - i) with ((e - (i + 4096)) + 1 * 4096) by ring.
    rewrite Z.div_add by lia.
    rewrite Z2Nat.inj_add by (try apply Z.div_pos; lia).
    rewrite Nat.add_1_r. reflexivity.
  - rewrite Z.div_small by lia. reflexivity.
Qed.

Lemma mon_showmappings_loop_done fuel i e k :
  e < i -> mon_showmappings_loop fuel i e k = (Done 0, k).
Proof.
  intros Hlt. destruct fuel; cbn [mon_showmappings_loop];
    destruct (Z.leb_spec i e); try lia; reflexivity.
Qed.

(** One turn of the loop on a page whose walk succeeds. *)
Lemma mon_showmappings_loop_step fuel i e k k1 pte :
  i <= e ->
  pgdir_walk i true k = (Done (Some (PDX i, PTX i)), k1) ->
  leaf_entry (kern_pgdir k1) i = Some pte ->
  mon_showmappings_loop (S fuel) i e k =
  mon_showmappings_loop fuel (to_uint32 (i + PGSIZE)) e
    (set_console (console k1 ++ page_report i pte) k1).
Proof.
  intros Hle Hwalk Hleaf. cbn [mon_showmappings_loop].
  destruct (Z.leb_spec i e); [|lia].
  rewrite (bind_done _ _ _ _ _ Hwalk).
  rewrite (bind_done _ _ _ _ _ (cprintf_run _ _ _)).
  erewrite bind_done by (apply read_pte_leaf; exact Hleaf).
  unfold page_report.
  destruct (Z.land pte PTE_P =? 0); cbn [negb];
    rewrite (bind_done _ _ _ _ _ (cprintf_run _ _ _));
    rewrite !set_console_twice; cbn [console set_console];
    rewrite <- app_assoc; reflexivity.
Qed.

(** One turn of the loop on a page whose walk fails. *)
Lemma mon_showmappings_loop_error fuel i e k :
  i <= e ->
  pgdir_walk i true k = (Done None, k) ->
  mon_showmappings_loop (S fuel) i e k =
  (Done 0, set_console (console k ++ [Cprintf "Page walk error!\n" []]) k).
Proof.
  intros Hle Hwalk. cbn [mon_showmappings_loop].
  destruct (Z.leb_spec i e); [|lia].
  rewrite (bind_done _ _ _ _ _ Hwalk). reflexivity.
Qed.






(** *** Setting the permission field *)

Lemma perm_field_set old bits :
  0 <= bits < 4096 ->
  Z.land (Z.lor (Z.land old (Z.lnot 4095)) bits) 4095 = bits.
Proof.
  intros Hbits. rewrite Z.land_lor_distr_l, <- Z.land_assoc.
  change (Z.land (Z.lnot 4095) 4095) with 0.
  rewrite Z.land_0_r, Z.lor_0_l.
  change 4095 with (Z.ones 12). rewrite Z.land_ones by lia.
  apply Z.mod_small. lia.
Qed.

Lemma perm_frame_kept old bits :
  0 <= bits < 4096 ->
  PTE_ADDR (Z.lor (Z.land old (Z.lnot 4095)) bits) = PTE_ADDR old.
Proof.
  intros Hbits. unfold PTE_ADDR.
  rewrite Z.land_lor_distr_l, <- Z.land_assoc, Z.land_diag.
  rewrite <- (Z.ldiff_land bits). change 4095 with (Z.ones 12).
  rewrite Z.ldiff_ones_r by lia.
  rewrite Z.shiftr_div_pow2 by lia.
  rewrite Z.div_small by lia.
  rewrite Z.shiftl_0_l. apply Z.lor_0_r.
Qed.

Lemma flag_of_field pte bit :
  Z.land 4095 bit = bit -> flag pte bit = flag (Z.land pte 4095) bit.
Proof.
  intros Hbit. unfold flag. rewrite <- Z.land_assoc, Hbit. reflexivity.
Qed.

Lemma write_pte_leaf va v k old :
  leaf_entry (kern_pgdir k) va = Some old ->
  exists k2,
    write_pte (Some (PDX va, PTX va)) v k = (Done tt, k2) /\
    console k2 = console k /\
    free_pages k2 = free_pages k /\
    leaf_entry (kern_pgdir k2) va = Some v.
Proof.
  unfold leaf_entry, pte_at, write_pte. cbn [fst snd].
  destruct (kern_pgdir k !! PDX va) as [pt|]; [|discriminate].
  intros _. eexists. split; [reflexivity|].
  split; [reflexivity|]. split; [reflexivity|].
  cbn [kern_pgdir set_pgdir]. rewrite !lookup_insert_eq. reflexivity.
Qed.

(** The loop only ever adds to the console. *)
Lemma mon_showmappings_loop_console e fuel : forall i k,
  exists more,
    console (mon_showmappings_loop fuel i e k).2 = console k ++ more.
Proof.
  induction fuel as [|fuel IH]; intros i k;
    destruct (Z.le_gt_cases i e) as [Hle|Hgt];
    try (rewrite mon_showmappings_loop_done by lia;
         exists []; rewrite app_nil_r; reflexivity).
  - exists []. cbn [mon_showmappings_loop].
    destruct (Z.leb_spec i e); [|lia]. rewrite app_nil_r. reflexivity.
  - destruct (kern_pgdir k !! PDX i) as [pt|] eqn:Hpt;
      [|destruct (free_pages k) as [|n] eqn:Hfree].
    + destruct (pgdir_walk_succeeds i k) as (k1 & Hwalk & Hout & Hleaf);
        [left; rewrite Hpt; eauto|].
      rewrite (mon_showmappings_loop_step fuel i e k k1 _ Hle Hwalk Hleaf).
      destruct (IH (to_uint32 (i + PGSIZE))
                  (set_console (console k1 ++ page_report i
                     (default 0 (leaf_entry (kern_pgdir k) i))) k1))
        as [more Hmore].
      rewrite Hmore. cbn [console set_console]. rewrite Hout, <- app_assoc.
      eauto.
    + rewrite (mon_showmappings_loop_error fuel i e k Hle
                 (pgdir_walk_fails i k Hpt Hfree)).
      cbn [snd console set_console]. eauto.
    + destruct (pgdir_walk_succeeds i k) as (k1 & Hwalk & Hout & Hleaf);
        [right; lia|].
      rewrite (mon_showmappings_loop_step fuel i e k k1 _ Hle Hwalk Hleaf).
      destruct (IH (to_uint32 (i + PGSIZE))
                  (set_console (console k1 ++ page_report i
                     (default 0 (leaf_entry (kern_pgdir k) i))) k1))
        as [more Hmore].
      rewrite Hmore. cbn [console set_console]. rewrite Hout, <- app_assoc.
      eauto.
Qed.

(** [setPerm] when its walk yields a leaf entry. *)
Lemma setPerm_run name a b rest tf k :
  is_Some (kern_pgdir k !! PDX (convert a)) \/ free_pages k <> O ->
  exists k1,
    setPerm 3 (name :: a :: b :: rest) tf k = (Done 0, k1) /\
    console k1 = console k /\
    leaf_entry (kern_pgdir k1) (convert a) =
      Some (Z.lor (Z.land (default 0 (leaf_entry (kern_pgdir k) (convert a)))
                    (Z.lnot 4095))
              (convert b)).
Proof.
  intros Hok.
  destruct (pgdir_walk_succeeds (convert a) k Hok) as (k1 & Hwalk & Hout1 & Hleaf1).
  destruct (write_pte_leaf (convert a)
              (Z.land (default 0 (leaf_entry (kern_pgdir k) (convert a)))
                 (Z.lnot 4095)) k1 _ Hleaf1)
    as (k2 & Hw2 & Hout2 & _ & Hleaf2).
  destruct (write_pte_leaf (convert a)
              (Z.lor (Z.land (default 0 (leaf_entry (kern_pgdir k) (convert a)))
                        (Z.lnot 4095)) (convert b)) k2 _ Hleaf2)
    as (k3 & Hw3 & Hout3 & _ & Hleaf3).
  exists k3. split; [|split; [congruence|exact Hleaf3]].
  unfold setPerm. cbn [Z.eqb Pos.eqb negb].
  rewrite (bind_done _ _ k a k) by reflexivity.
  rewrite (bind_done _ _ _ _ _ Hwalk).
  rewrite (bind_done _ _ _ _ _ (read_pte_leaf _ _ _ Hleaf1)).
  rewrite (bind_done _ _ _ _ _ Hw2).
  rewrite (bind_done _ _ k2 b k2) by reflexivity.
  rewrite (bind_done _ _ _ _ _ (read_pte_leaf _ _ _ Hleaf2)).
  rewrite (bind_done _ _ _ _ _ Hw3).
  reflexivity.
Qed.

(** C3 (as amended).  Let [bits] fit the 12-bit permission field and have
    the present bit set, and let the walk of [addr] yield a leaf entry
    (its intermediate table is there, or a page is left to allocate it).
    Then [setPerm addr bits] returns 0 and leaves in the leaf entry [bits]
    as the low 12 bits and the frame address it held before (zero in a
    fresh table); [showmappings addr addr], run next, prints the page as
    mapped at that frame with the present, user and writable flags of
    [bits], and that is all it prints when [addr] is below the last
    page. *)
Theorem setPerm_then_showmappings (fuel : nat) (n0 n1 a b : string)
    (tf : Z) (k : kernel) :
  convert b < 4096 ->
  Z.land (convert b) PTE_P <> 0 ->
  is_Some (kern_pgdir k !! PDX (convert a)) \/ free_pages k <> O ->
  let addr := convert a in
  let bits := convert b in
  let old := default 0 (leaf_entry (kern_pgdir k) addr) in
  let shown :=
    [ Cprintf "Got args: 0x%08x 0x%08x\n" [ArgInt addr; ArgInt addr];
      Cprintf "Virtual address : 0x%08x " [ArgInt addr];
      Cprintf "Physical page : 0x%08x PTE_P %d PTE_U %d PTE_W %d\n"
        [ArgInt (PTE_ADDR old); ArgInt 1; ArgInt (flag bits PTE_U);
         ArgInt (flag bits PTE_W)] ] in
  exists k1 new,
    setPerm 3 [n0; a; b] tf k = (Done 0, k1) /\
    console k1 = console k /\
    leaf_entry (kern_pgdir k1) addr = Some new /\
    Z.land new 4095 = bits /\
    PTE_ADDR new = PTE_ADDR old /\
    (exists more,
       console (mon_showmappings (S fuel) 3 [n1; a; a] tf k1).2 =
       console k ++ shown ++ more) /\
    (addr < 2 ^ 32 - PGSIZE ->
     mon_showmappings (S fuel) 3 [n1; a; a] tf k1 =
     (Done 0, set_console (console k ++ shown) k1)).
Proof.
  intros Hfits Hpresent Hok addr bits old shown.
  change (convert b) with bits in Hfits, Hpresent.
  assert (Hbits : 0 <= bits < 4096).
  { split; [|exact Hfits]. unfold bits. rewrite convert_unfold.
    apply to_uint32_range. }
  assert (Haddr : 0 <= addr < 2 ^ 32).
  { unfold addr. rewrite convert_unfold. apply to_uint32_range. }
  destruct (setPerm_run n0 a b [] tf k Hok) as (k1 & Hrun & Hout & Hleaf).
  fold addr bits old in Hleaf.
  set (new := Z.lor (Z.land old (Z.lnot 4095)) bits) in *.
  assert (Hlow : Z.land new 4095 = bits) by (apply perm_field_set, Hbits).
  assert (Hframe : PTE_ADDR new = PTE_ADDR old) by (apply perm_frame_kept, Hbits).
  assert (Hreport : page_report addr new = skipn 1 shown).
  { unfold page_report, shown. cbn [skipn]. f_equal.
    assert (Hp : Z.land new PTE_P = Z.land bits PTE_P).
    { rewrite <- Hlow. rewrite <- Z.land_assoc. reflexivity. }
    destruct (Z.eqb_spec (Z.land new PTE_P) 0) as [Hz|Hnz]; [congruence|].
    rewrite Hframe.
    rewrite (flag_of_field new PTE_P), (flag_of_field new PTE_U),
      (flag_of_field new PTE_W), Hlow by reflexivity.
    unfold flag at 1. rewrite <- Hp.
    destruct (Z.eqb_spec (Z.land new PTE_P) 0); [contradiction|reflexivity]. }
  assert (Hstep : mon_showmappings (S fuel) 3 [n1; a; a] tf k1 =
                  mon_showmappings_loop fuel (to_uint32 (addr + PGSIZE)) addr
                    (set_console (console k ++ shown) k1)).
  { unfold mon_showmappings. cbn [Z.eqb Pos.eqb negb].
    rewrite (bind_done _ _ k1 a k1) by reflexivity.
    rewrite (bind_done _ _ k1 a k1) by reflexivity.
    rewrite (bind_done _ _ _ _ _ (cprintf_run _ _ _)).
    fold addr.
    assert (Hwalk : exists pt, kern_pgdir k1 !! PDX addr = Some pt).
    { unfold leaf_entry, pte_at in Hleaf. cbn [fst] in Hleaf.
      destruct (kern_pgdir k1 !! PDX addr) as [pt|]; [eauto|discriminate]. }
    destruct Hwalk as [pt Hpt].
    erewrite mon_showmappings_loop_step;
      [|lia|apply (pgdir_walk_present addr true _ pt); exact Hpt|exact Hleaf].
    rewrite set_console_twice. cbn [console set_console].
    rewrite Hreport, Hout, <- app_assoc. reflexivity. }
  exists k1, new. repeat split; try assumption.
  - rewrite Hstep.
    destruct (mon_showmappings_loop_console addr fuel
                (to_uint32 (addr + PGSIZE))
                (set_console (console k ++ shown) k1)) as [more Hmore].
    exists more. rewrite Hmore. cbn [console set_console].
    rewrite <- app_assoc. reflexivity.
  - intros Htop. rewrite Hstep.
    rewrite to_uint32_small by (unfold PGSIZE in *; lia).
    apply mon_showmappings_loop_done. unfold PGSIZE. lia.
Qed.

Lemma setPerm_then_showmappings_witness :
  exists k1 new,
    setPerm 3 ["setPerm"; "0x1000"; "0x7"] 0 sample_one_free_page = (Done 0, k1) /\
    leaf_entry (kern_pgdir k1) 4096 = Some new /\
    Z.land new 4095 = 7 /\
    PTE_ADDR new = 0 /\
    mon_showmappings 1 3 ["showmappings"; "0x1000"; "0x1000"] 0 k1 =
    (Done 0,
     set_console
       [ Cprintf "Got args: 0x%08x 0x%08x\n" [ArgInt 4096; ArgInt 4096];
         Cprintf "Virtual address : 0x%08x " [ArgInt 4096];
         Cprintf "Physical page : 0x%08x PTE_P %d PTE_U %d PTE_W %d\n"
           [ArgInt 0; ArgInt 1; ArgInt 1; ArgInt 1] ] k1).
Proof.
  destruct (setPerm_then_showmappings 0 "setPerm" "showmappings" "0x1000" "0x7"
              0 sample_one_free_page)
    as (k1 & new & Hrun & _ & Hleaf & Hlow & Hframe & _ & Hshow).
  - vm_compute. reflexivity.
  - vm_compute. discriminate.
  - right. vm_compute. discriminate.
  - exists k1, new. split; [exact Hrun|]. split; [exact Hleaf|].
    split; [exact Hlow|]. split; [exact Hframe|].
    apply Hshow. vm_compute. reflexivity.
Defined.

(** C3 (as stated) fails: [0x7] fits the permission field and has the
    present bit set, but with no intermediate table for [0x1000] and no
    page left, [setPerm] faults and [showmappings] then reports a page
    walk error, not the bits.  And where the walk succeeds, the report
    shows three flags of the field only: after [setPerm] with [0x9] and
    with [0x1] the leaf entries differ and [showmappings] prints the
    same. *)
Lemma setPerm_then_showmappings_counterexample :
  (convert "0x7" < 4096 /\
   Z.land (convert "0x7") PTE_P <> 0 /\
   setPerm 3 ["setPerm"; "0x1000"; "0x7"] 0 empty_kernel = (Crash, empty_kernel) /\
   mon_showmappings 1 3 ["showmappings"; "0x1000"; "0x1000"] 0 empty_kernel =
   (Done 0,
    set_console
      [ Cprintf "Got args: 0x%08x 0x%08x\n" [ArgInt 4096; ArgInt 4096];
        Cprintf "Page walk error!\n" [] ] empty_kernel))
  /\ (let k9 := (setPerm 3 ["setPerm"; "0x1000"; "0x9"] 0 sample_one_free_page).2 in
      let k1 := (setPerm 3 ["setPerm"; "0x1000"; "0x1"] 0 sample_one_free_page).2 in
      leaf_entry (kern_pgdir k9) 4096 = Some 9 /\
      leaf_entry (kern_pgdir k1) 4096 = Some 1 /\
      console (mon_showmappings 1 3 ["showmappings"; "0x1000"; "0x1000"] 0 k9).2
      = console (mon_showmappings 1 3 ["showmappings"; "0x1000"; "0x1000"] 0 k1).2).
Proof.
  split.
  - split; [vm_compute; reflexivity|]. split; [vm_compute; discriminate|].
    split; reflexivity.
  - cbv zeta. split; [reflexivity|]. split; reflexivity.
Qed.

(** ** Dispatch and the console loop *)

Section Dispatch.
Context {F : Type} (invoke : F -> handler) (table : list (Command F)) (tf : Z).

(** What [runcmd] returns is 0, or what the handler it called returned. *)
Lemma runcmd_in_result buf k :
  runcmd_in invoke table buf tf k =
    (Done 0, set_console
       (console k ++ [Cprintf "Too many arguments (max %d)\n" [ArgInt 16]]) k)
    /\ parse_args (MAXARGS - 1) buf [] = None
  \/ runcmd_in invoke table buf tf k = (Done 0, k)
    /\ parse_args (MAXARGS - 1) buf [] = Some []
  \/ (exists arg0 argv,
        parse_args (MAXARGS - 1) buf [] = Some (arg0 :: argv) /\
        lookup_command table arg0 = None /\
        runcmd_in invoke table buf tf k =
        (Done 0, set_console
           (console k ++ [Cprintf "Unknown command '%s'\n" [ArgStr arg0]]) k))
  \/ (exists arg0 argv c,
        parse_args (MAXARGS - 1) buf [] = Some (arg0 :: argv) /\
        lookup_command table arg0 = Some c /\
        runcmd_in invoke table buf tf k =
        invoke (func c) (Z.of_nat (length (arg0 :: argv))) (arg0 :: argv) tf k).
Proof.
  unfold runcmd_in.
  destruct (parse_args (MAXARGS - 1) buf []) as [[|arg0 argv]|] eqn:Hparse.
  - right. left. auto.
  - destruct (lookup_command table arg0) as [c|] eqn:Hlook.
    + right. right. right. exists arg0, argv, c. auto.
    + right. right. left. exists arg0, argv. auto.
  - left. auto.
Qed.

Lemma monitor_loop_null input k :
  monitor_loop invoke table (None :: input) tf k =
  monitor_loop invoke table input tf k.
Proof. reflexivity. Qed.

Lemma monitor_loop_line buf input k r k1 :
  runcmd_in invoke table buf tf k = (Done r, k1) ->
  monitor_loop invoke table (Some buf :: input) tf k =
  if r <? 0 then (Done Returned, k1)
  else monitor_loop invoke table input tf k1.
Proof.
  intros Hrun. cbn [monitor_loop]. rewrite (bind_done _ _ _ _ _ Hrun).
  destruct (r <? 0); reflexivity.
Qed.

Lemma monitor_loop_returned input : forall k k',
  monitor_loop invoke table input tf k = (Done Returned, k') <->
  exists before buf after k1 r,
    input = before ++ Some buf :: after /\
    survives invoke table tf before k k1 /\
    runcmd_in invoke table buf tf k1 = (Done r, k') /\
    r < 0.
Proof.
  intros k k'. split.
  - revert k. induction input as [|[buf|] input IH]; intros k Hloop.
    + discriminate Hloop.
    + cbn [monitor_loop] in Hloop.
      apply bind_inv in Hloop as (r & k1 & Hrun & Hrest).
      destruct (Z.ltb_spec r 0) as [Hneg|Hpos].
      * injection Hrest as <-.
        exists [], buf, input, k, r. repeat split; [constructor|assumption..].
      * destruct (IH _ Hrest) as (before & buf' & after & k2 & r' & -> & Hs & Hr & Hn).
        exists (Some buf :: before), buf', after, k2, r'.
        repeat split; [econstructor; eassumption|assumption..].
    + rewrite monitor_loop_null in Hloop.
      destruct (IH _ Hloop) as (before & buf' & after & k2 & r' & -> & Hs & Hr & Hn).
      exists (None :: before), buf', after, k2, r'.
      repeat split; [constructor; assumption|assumption..].
  - intros (before & buf & after & k1 & r & -> & Hs & Hr & Hn).
    induction Hs as [k|before k k1 Hs IH|buf' before k r' k0 k1 Hrun Hpos Hs IH].
    + rewrite app_nil_l, (monitor_loop_line _ _ _ _ _ Hr).
      destruct (Z.ltb_spec r 0); [reflexivity|lia].
    + rewrite <- app_comm_cons, monitor_loop_null. apply IH, Hr.
    + rewrite <- app_comm_cons, (monitor_loop_line _ _ _ _ _ Hrun).
      destruct (Z.ltb_spec r' 0); [lia|]. apply IH, Hr.
Qed.



End Dispatch.


(** ** The handlers *)

Ltac bind_inversion H :=
  repeat
    match type of H with
    | (_ ≫= _) _ = (Done _, _) =>
        let a := fresh "a" in
        let k := fresh "k" in
        let Ha := fresh "Ha" in
        apply bind_inv in H as (a & k & Ha & H)
    end.

Lemma mret_inv {A} (a b : A) k k' :
  (mret a : M A) k = (Done b, k') -> a = b.
Proof. intros Heq. injection Heq as -> _. reflexivity. Qed.

Section HandlerResults.
Context `{KernelServices}.

Lemma mon_backtrace_loop_zero fuel : forall ebp k r k',
  mon_backtrace_loop fuel ebp k = (Done r, k') -> r = 0.
Proof.
  induction fuel as [|fuel IH]; intros ebp k r k' Hrun;
    cbn [mon_backtrace_loop] in Hrun; destruct (ebp =? 0);
    try (symmetry; exact (mret_inv _ _ _ _ Hrun)).
  - discriminate Hrun.
  - bind_inversion Hrun. eapply IH, Hrun.
Qed.

Lemma mon_showmappings_loop_zero e fuel : forall i k r k',
  mon_showmappings_loop fuel i e k = (Done r, k') -> r = 0.
Proof.
  induction fuel as [|fuel IH]; intros i k r k' Hrun;
    cbn [mon_showmappings_loop] in Hrun; destruct (i <=? e);
    try (symmetry; exact (mret_inv _ _ _ _ Hrun)).
  - discriminate Hrun.
  - apply bind_inv in Hrun as ([r0|] & k1 & _ & Hrun).
    + bind_inversion Hrun. eapply IH, Hrun.
    + bind_inversion Hrun. symmetry. exact (mret_inv _ _ _ _ Hrun).
Qed.

Lemma dump_loop_zero shown lim fuel : forall cur k r k',
  dump_loop shown fuel cur lim k = (Done r, k') -> r = 0.
Proof.
  induction fuel as [|fuel IH]; intros cur k r k' Hrun;
    cbn [dump_loop] in Hrun; destruct (cur <? lim);
    try (symmetry; exact (mret_inv _ _ _ _ Hrun)).
  - discriminate Hrun.
  - destruct (shown cur); [|discriminate Hrun].
    bind_inversion Hrun. eapply IH, Hrun.
Qed.

(** Every handler of the table returns 0 when it returns. *)
Lemma call_zero fuel f argc argv tf k r k' :
  call fuel f argc argv tf k = (Done r, k') -> r = 0.
Proof.
  destruct f; cbn [call]; intros Hrun.
  - unfold mon_help in Hrun. bind_inversion Hrun.
    symmetry. exact (mret_inv _ _ _ _ Hrun).
  - unfold mon_kerninfo in Hrun. bind_inversion Hrun.
    symmetry. exact (mret_inv _ _ _ _ Hrun).
  - unfold mon_backtrace in Hrun. bind_inversion Hrun.
    eapply mon_backtrace_loop_zero, Hrun.
  - unfold mon_showmappings in Hrun. destruct (negb (argc =? 3));
      bind_inversion Hrun.
    + symmetry. exact (mret_inv _ _ _ _ Hrun).
    + eapply mon_showmappings_loop_zero, Hrun.
  - unfold setPerm in Hrun. destruct (negb (argc =? 3));
      bind_inversion Hrun; symmetry; exact (mret_inv _ _ _ _ Hrun).
  - unfold vvm in Hrun. destruct (negb (argc =? 3));
      bind_inversion Hrun.
    + symmetry. exact (mret_inv _ _ _ _ Hrun).
    + eapply dump_loop_zero, Hrun.
  - unfold vpm in Hrun. destruct (negb (argc =? 3));
      bind_inversion Hrun.
    + symmetry. exact (mret_inv _ _ _ _ Hrun).
    + destruct (KADDR _); [|discriminate Hrun].
      eapply dump_loop_zero, Hrun.
Qed.

Lemma runcmd_zero fuel buf tf k r k' :
  runcmd fuel buf tf k = (Done r, k') -> r = 0.
Proof.
  unfold runcmd. intros Hrun.
  destruct (runcmd_in_result (call fuel) commands tf buf k)
    as [[Hz _]|[[Hz _]|[(arg0 & argv & _ & _ & Hz)|(arg0 & argv & c & _ & _ & Hc)]]];
    try (rewrite Hz in Hrun; symmetry; exact (mret_inv _ _ _ _ Hrun)).
  rewrite Hc in Hrun. eapply call_zero, Hrun.
Qed.

(** C10.  Every handler of the static table returns 0 whenever it
    returns ([help] and [kerninfo] always do); the dispatch returns 0
    when no handler runs, on an empty line and on an unknown command;
    so [runcmd] never returns a negative value and [monitor], once
    entered, never returns. *)
Theorem monitor_never_exits (fuel : nat) :
  (forall f argc argv tf k r k',
     call fuel f argc argv tf k = (Done r, k') -> r = 0)
  /\ (forall argc argv tf k,
        (exists k', mon_help argc argv tf k = (Done 0, k')) /\
        (exists k', mon_kerninfo argc argv tf k = (Done 0, k')))
  /\ (forall buf tf k,
        parse_args (MAXARGS - 1) buf [] = Some [] ->
        runcmd fuel buf tf k = (Done 0, k))
  /\ (forall buf tf k arg0 argv,
        parse_args (MAXARGS - 1) buf [] = Some (arg0 :: argv) ->
        lookup_command commands arg0 = None ->
        runcmd fuel buf tf k =
        (Done 0, set_console
           (console k ++ [Cprintf "Unknown command '%s'\n" [ArgStr arg0]]) k))
  /\ (forall buf tf k r k', runcmd fuel buf tf k = (Done r, k') -> r = 0)
  /\ (forall input tf k k', monitor fuel input tf k <> (Done Returned, k')).
Proof.
  split; [intros; eapply call_zero; eassumption|].
  split; [intros; split; eexists; reflexivity|].
  split; [|split; [|split]].
  - intros buf tf k Hparse. unfold runcmd, runcmd_in. rewrite Hparse. reflexivity.
  - intros buf tf k arg0 argv Hparse Hlook.
    unfold runcmd, runcmd_in. rewrite Hparse, Hlook. reflexivity.
  - intros; eapply runcmd_zero; eassumption.
  - intros input tf k k' Hrun. unfold monitor, monitor_in in Hrun.
    bind_inversion Hrun.
    apply monitor_loop_returned in Hrun
      as (before & buf & after & kb & r & _ & _ & Hr & Hneg).
    apply (runcmd_zero fuel) in Hr. lia.
Qed.

(** C8 (as amended).  [showmappings], [setPerm], [vvm] and [vpm], called
    with an argument count other than 3, print a usage string and return
    0 with nothing else done; [help], [kerninfo] and [backtrace] do not
    look at their arguments and do the same whatever the count. *)
Theorem wrong_argument_count (fuel : nat) (f : mon_func) (argc : Z)
    (argv : list string) (tf : Z) (k : kernel) :
  (checks_argc f = true -> argc <> 3 ->
   exists usage,
     String.prefix "Usage : " usage = true /\
     call fuel f argc argv tf k =
     (Done 0, set_console (console k ++ [Cprintf usage []]) k))
  /\ (checks_argc f = false ->
      forall argc' argv',
        call fuel f argc' argv' tf k = call fuel f argc argv tf k).
Proof.
  split.
  - intros Hf Hargc. apply Z.eqb_neq in Hargc.
    destruct f; try discriminate Hf; cbn [call];
      unfold mon_showmappings, setPerm, vvm, vpm; rewrite Hargc;
      eexists; (split; [|reflexivity]); reflexivity.
  - intros Hf argc' argv'. destruct f; try discriminate Hf; reflexivity.
Qed.

End HandlerResults.

Lemma monitor_never_exits_witness :
  runcmd (H := sample_services) 1 "backtrace" 0 empty_kernel =
    (Done 0, set_console [Cprintf "Stack backreace:\n" []] empty_kernel)
  /\ runcmd (H := sample_services) 1 "" 0 empty_kernel = (Done 0, empty_kernel)
  /\ (runcmd (H := sample_services) 1 "quit" 0 empty_kernel).1 = Done 0.
Proof.
  destruct (monitor_never_exits (H := sample_services) 1)
    as (Hcall & _ & Hempty & Hunknown & Hrun & _).
  split; [|split].
  - assert (Hr := Hrun "backtrace" 0 empty_kernel 0 _ eq_refl). reflexivity.
  - apply Hempty. reflexivity.
  - rewrite (Hunknown "quit" 0 empty_kernel "quit" []); reflexivity.
Defined.

Lemma wrong_argument_count_witness :
  (exists usage,
     String.prefix "Usage : " usage = true /\
     call (H := sample_services) 1 fn_vvm 2 ["vvm"; "0x10"] 0 empty_kernel =
     (Done 0, set_console (console empty_kernel ++ [Cprintf usage []])
                empty_kernel))
  /\ call (H := sample_services) 1 fn_mon_help 2 ["help"; "me"] 0 empty_kernel =
     call (H := sample_services) 1 fn_mon_help 1 ["help"] 0 empty_kernel.
Proof.
  split.
  - apply (proj1 (wrong_argument_count (H := sample_services) 1 fn_vvm 2
                    ["vvm"; "0x10"] 0 empty_kernel)); [reflexivity|lia].
  - apply (proj2 (wrong_argument_count (H := sample_services) 1 fn_mon_help 1
                    ["help"] 0 empty_kernel)). reflexivity.
Defined.

(** C8 (as stated) fails: the specification lists one argument for
    [help], and [help me], which has two, prints no usage string: it
    prints the list of commands. *)
Lemma help_ignores_argument_count_counterexample :
  spec_arg_count fn_mon_help = 1 /\
  parse_args (MAXARGS - 1) "help me" [] = Some ["help"; "me"] /\
  exists k',
    runcmd (H := sample_services) 0 "help me" 0 empty_kernel = (Done 0, k') /\
    console k' =
      map (fun c => Cprintf "%s - %s\n" [ArgStr (name c); ArgStr (desc c)])
        commands /\
    ~ (exists usage, console k' = [Cprintf usage []]).
Proof.
  split; [reflexivity|]. split; [reflexivity|].
  eexists. split; [reflexivity|]. split; [reflexivity|].
  intros [usage Husage]. discriminate Husage.
Qed.

(* ===================================================================== *)
(** * Part III.  Further properties of the code                           *)
(* ===================================================================== *)

Lemma gobble_whitespace_head buf c rest :
  gobble_whitespace buf = String c rest -> is_separator c = false.
Proof.
  induction buf as [|d buf IH]; [discriminate|].
  rewrite gobble_whitespace_cons.
  destruct (is_separator d) eqn:Hd; [exact IH|].
  intros Heq. injection Heq as <- _. exact Hd.
Qed.

Lemma scan_arg_plain_chars buf : string_forall is_plain (scan_arg buf).1 = true.
Proof.
  induction buf as [|c buf IH]; [reflexivity|].
  rewrite scan_arg_cons.
  destruct (is_nul c) eqn:Hn; [reflexivity|].
  destruct (is_separator c) eqn:Hs; [reflexivity|].
  cbn [orb fst string_forall]. rewrite IH.
  unfold is_plain. rewrite Hn, Hs. reflexivity.
Qed.

Lemma scan_arg_token buf :
  at_terminator (gobble_whitespace buf) = false ->
  is_token (scan_arg (gobble_whitespace buf)).1 = true.
Proof.
  destruct (gobble_whitespace buf) as [|c rest] eqn:Hg; [discriminate|].
  cbn [at_terminator]. intros Hn.
  pose proof (gobble_whitespace_head buf c rest Hg) as Hs.
  pose proof (scan_arg_plain_chars (String c rest)) as Hp.
  rewrite scan_arg_cons, Hn, Hs in *. cbn [orb fst] in *.
  unfold is_token. rewrite Hp. reflexivity.
Qed.

Lemma parse_args_tokens room : forall buf argv0 argv,
  parse_args room buf argv0 = Some argv ->
  exists toks,
    argv = argv0 ++ toks /\
    (length toks <= room)%nat /\
    Forall (fun t => is_token t = true) toks.
Proof.
  induction room as [|room IH]; intros buf argv0 argv; cbn [parse_args];
    destruct (at_terminator (gobble_whitespace buf)) eqn:Hend;
    try discriminate;
    try (intros Heq; injection Heq as <-; exists []; rewrite app_nil_r;
         repeat split; [cbn; lia|constructor]).
  pose proof (scan_arg_token buf Hend) as Htok.
  destruct (scan_arg (gobble_whitespace buf)) as [tok rest].
  intros Hparse. destruct (IH _ _ _ Hparse) as (toks & -> & Hlen & Hall).
  exists (tok :: toks). rewrite <- app_assoc. repeat split.
  - cbn. lia.
  - constructor; assumption.
Qed.

(** X2.  When the parsing loop of [runcmd] accepts a line, it yields fewer
    than [MAXARGS] arguments, so that [argv[argc]] stays inside the
    array; there are as many as the line has tokens, and each is
    nonempty and holds neither a separator nor a terminator. *)
Theorem parse_args_bounds (buf : string) (argv : list string) :
  parse_args (MAXARGS - 1) buf [] = Some argv ->
  (length argv < MAXARGS)%nat /\
  length argv = count_tokens false buf /\
  Forall (fun t => is_token t = true) argv.
Proof.
  intros Hparse.
  destruct (parse_args_tokens _ _ _ _ Hparse) as (toks & -> & Hlen & Hall).
  cbn [app]. split; [unfold MAXARGS in *; lia|]. split; [|exact Hall].
  destruct (parse_args_count (MAXARGS - 1) buf []) as [Hfit Hover].
  destruct (Nat.le_gt_cases (count_tokens false buf) (MAXARGS - 1)) as [Hle|Hgt].
  - destruct (Hfit Hle) as (toks' & Hp & Hl). rewrite Hparse in Hp.
    injection Hp as ->. exact Hl.
  - rewrite (Hover Hgt) in Hparse. discriminate.
Qed.

Lemma lookup_command_none {F} (table : list (Command F)) arg0 :
  lookup_command table arg0 = None <-> forall c, c ∈ table -> name c <> arg0.
Proof.
  induction table as [|d table IH]; cbn [lookup_command].
  - split; [intros _ c Hc; inversion Hc|reflexivity].
  - destruct (String.eqb_spec arg0 (name d)) as [->|Hne].
    + split; [discriminate|]. intros Hall. exfalso.
      apply (Hall d); [left|reflexivity].
    + rewrite IH. split.
      * intros Hall c Hc. apply elem_of_cons in Hc as [->|Hc]; [congruence|auto].
      * intros Hall c Hc. apply Hall. right. exact Hc.
Qed.

Lemma lookup_command_some {F} (table : list (Command F)) arg0 c :
  lookup_command table arg0 = Some c <->
  exists before after,
    table = before ++ c :: after /\ name c = arg0 /\
    forall c', c' ∈ before -> name c' <> arg0.
Proof.
  induction table as [|d table IH]; cbn [lookup_command].
  - split; [discriminate|]. intros (before & after & Heq & _).
    destruct before; discriminate Heq.
  - destruct (String.eqb_spec arg0 (name d)) as [->|Hne].
    + split.
      * intros Heq. injection Heq as ->. exists [], table.
        repeat split. intros c' Hc'. inversion Hc'.
      * intros (before & after & Heq & Hname & Hfirst).
        destruct before as [|b before].
        -- injection Heq as -> _. reflexivity.
        -- injection Heq as -> _. exfalso. apply (Hfirst b); [left|reflexivity].
    + rewrite IH. split.
      * intros (before & after & -> & Hname & Hfirst).
        exists (d :: before), after. repeat split; [assumption|].
        intros c' Hc'. apply elem_of_cons in Hc' as [->|Hc']; [congruence|auto].
      * intros (before & after & Heq & Hname & Hfirst).
        destruct before as [|b before].
        -- injection Heq as -> _. congruence.
        -- injection Heq as -> ->. exists before, after. repeat split; [assumption|].
           intros c' Hc'. apply Hfirst. right. exact Hc'.
Qed.

Lemma lookup_command_nodup {F} (table : list (Command F)) c :
  NoDup (map name table) -> c ∈ table -> lookup_command table (name c) = Some c.
Proof.
  induction table as [|d table IH]; intros Hnd Hc; [inversion Hc|].
  cbn [map] in Hnd. apply NoDup_cons in Hnd as [Hd Hnd].
  cbn [lookup_command].
  destruct (String.eqb_spec (name c) (name d)) as [Heq|Hne].
  - apply elem_of_cons in Hc as [->|Hc]; [reflexivity|].
    exfalso. apply Hd. rewrite <- Heq. apply list_elem_of_fmap. eauto.
  - apply elem_of_cons in Hc as [->|Hc]; [congruence|]. auto.
Qed.

(** X3.  The lookup of [runcmd] fails exactly when no entry of the table
    has the name [argv[0]], and otherwise yields the first entry that
    has it; the names of the static table are distinct, so each of its
    entries is found under its own name. *)
Theorem lookup_command_first_match {F} (table : list (Command F)) (arg0 : string) :
  (lookup_command table arg0 = None <-> forall c, c ∈ table -> name c <> arg0)
  /\ (forall c,
        lookup_command table arg0 = Some c <->
        exists before after,
          table = before ++ c :: after /\ name c = arg0 /\
          forall c', c' ∈ before -> name c' <> arg0)
  /\ NoDup (map name commands)
  /\ (forall c, c ∈ commands -> lookup_command commands (name c) = Some c).
Proof.
  split; [apply lookup_command_none|]. split; [intros c; apply lookup_command_some|].
  assert (Hnd : NoDup (map name commands)).
  { cbn. repeat (apply NoDup_cons_2;
                 [rewrite ?elem_of_cons, elem_of_nil; intros Hin;
                  repeat (destruct Hin as [Hin|Hin]; [discriminate Hin|]);
                  exact Hin|]).
    apply NoDup_nil_2. }
  split; [exact Hnd|]. intros c Hc. apply lookup_command_nodup; assumption.
Qed.

(** X4.  On a line written as fewer than [MAXARGS] tokens separated by
    whitespace, [runcmd] does nothing and returns 0 when there is no
    token; otherwise it calls the handler of the first entry named by
    the first token, with the number of tokens as [argc] and the tokens
    as [argv], and returns what the handler returns; when no entry has
    that name it prints "Unknown command" with the token and returns
    0. *)
Theorem runcmd_in_line {F} (invoke : F -> handler) (table : list (Command F))
    (lead : string) (pieces : list (string * string)) (last : string)
    (tf : Z) (k : kernel) :
  string_forall is_separator lead = true ->
  Forall (fun p => is_token p.1 = true /\ is_gap p.2 = true) pieces ->
  last = EmptyString \/ is_token last = true ->
  (length pieces + length (last_token last) < MAXARGS)%nat ->
  runcmd_in invoke table (lead +:+ join_line pieces +:+ last) tf k =
  match map fst pieces ++ last_token last with
  | [] => (Done 0, k)
  | arg0 :: rest =>
      match lookup_command table arg0 with
      | Some c => invoke (func c) (Z.of_nat (S (length rest))) (arg0 :: rest) tf k
      | None =>
          (Done 0,
           set_console
             (console k ++ [Cprintf "Unknown command '%s'\n" [ArgStr arg0]]) k)
      end
  end.
Proof.
  intros Hlead Hpieces Hlast Hroom. unfold runcmd_in.
  rewrite parse_args_separators by exact Hlead.
  rewrite (parse_args_join pieces (MAXARGS - 1) last [])
    by (try assumption; unfold MAXARGS in *; lia).
  cbn [app]. destruct (map fst pieces ++ last_token last) as [|arg0 rest];
    [reflexivity|].
  destruct (lookup_command table arg0); reflexivity.
Qed.

Lemma mon_help_loop_lines {F} (table : list (Command F)) : forall k,
  mon_help_loop table k =
  (Done tt, set_console (console k ++ map help_line table) k).
Proof.
  induction table as [|c table IH]; intros k.
  - cbn. rewrite set_console_id. reflexivity.
  - cbn [mon_help_loop map].
    rewrite (bind_done _ _ _ _ _ (cprintf_run _ _ _)), IH.
    rewrite set_console_twice. cbn [console set_console].
    rewrite <- app_assoc. reflexivity.
Qed.

(** X5.  [help] ignores its arguments, prints one line with name and
    description for each entry of the command table, in table order,
    changes nothing else and returns 0; the names it lists are exactly
    those the lookup of [runcmd] finds. *)
Theorem mon_help_lists_commands (argc : Z) (argv : list string) (tf : Z)
    (k : kernel) :
  mon_help argc argv tf k =
    (Done 0, set_console (console k ++ map help_line commands) k)
  /\ (forall F (table : list (Command F)) k0,
        mon_help_loop table k0 =
        (Done tt, set_console (console k0 ++ map help_line table) k0))
  /\ (forall arg0,
        (exists c, c ∈ commands /\ name c = arg0) <->
        is_Some (lookup_command commands arg0)).
Proof.
  split; [|split].
  - unfold mon_help.
    rewrite (bind_done _ _ _ _ _ (mon_help_loop_lines commands k)). reflexivity.
  - intros F table k0. apply mon_help_loop_lines.
  - intros arg0. split.
    + intros (c & Hc & Hname).
      destruct (lookup_command commands arg0) as [c'|] eqn:Hl; [eauto|].
      exfalso. exact (proj1 (lookup_command_none commands arg0) Hl c Hc Hname).
    + intros [c Hl]. apply lookup_command_some in Hl
        as (before & after & Heq & Hname & _).
      exists c. split; [|exact Hname]. rewrite Heq.
      apply elem_of_app. right. left.
Qed.

Section UnwinderEdges.
Context `{KernelServices}.

Lemma mon_backtrace_loop_walk frames : forall fuel ebp ebp' k,
  frame_walk (memory k) ebp frames ebp' ->
  mon_backtrace_loop (length frames + fuel) ebp k =
  mon_backtrace_loop fuel ebp'
    (set_console (console k ++ concat (map frame_record frames)) k).
Proof.
  induction frames as [|fr frames IH]; intros fuel ebp ebp' k Hwalk;
    inversion Hwalk as [|? ? ? ? Hebp Hfr Hrest]; subst.
  - cbn [length map concat Nat.add]. rewrite set_console_id. reflexivity.
  - cbn [length Nat.add mon_backtrace_loop].
    destruct (Z.eqb_spec ebp 0) as [?|_]; [contradiction|].
    destruct (frame_at_words _ _ _ Hfr)
      as (eip & a1 & a2 & a3 & a4 & a5 & saved & -> & Hs & He & H1 & H2 & H3 & H4 & H5).
    rewrite (bind_done _ _ _ _ _ (load_done k _ _ He)).
    rewrite (bind_done _ _ _ _ _ (load_done k _ _ H1)).
    rewrite (bind_done _ _ _ _ _ (load_done k _ _ H2)).
    rewrite (bind_done _ _ _ _ _ (load_done k _ _ H3)).
    rewrite (bind_done _ _ _ _ _ (load_done k _ _ H4)).
    rewrite (bind_done _ _ _ _ _ (load_done k _ _ H5)).
    rewrite (bind_done _ _ _ _ _ (cprintf_run _ _ _)).
    rewrite (bind_done _ _ _ _ _ (cprintf_run _ _ _)).
    erewrite bind_done by (apply load_done; exact Hs).
    rewrite (IH fuel saved ebp') by exact Hrest.
    rewrite !set_console_twice. do 2 f_equal.
    cbn [console set_console map concat frame_record frame_pointer
         return_address saved_args].
    rewrite <- !app_assoc. reflexivity.
Qed.

Lemma mon_backtrace_loop_unreadable fuel ebp k :
  ebp <> 0 -> frame_at (memory k) ebp = None ->
  mon_backtrace_loop (S fuel) ebp k =
    (Crash,
     set_console
       (console k ++
        match words_above (memory k) ebp with
        | Some (eip, args) => frame_record (mkFrame ebp eip args 0)
        | None => []
        end) k)
  /\ (is_Some (words_above (memory k) ebp) -> memory k !! ebp = None).
Proof.
  intros Hebp Hfr. cbn [mon_backtrace_loop].
  destruct (Z.eqb_spec ebp 0) as [?|_]; [contradiction|].
  unfold frame_at, words_above, word_above in *.
  change (4 * 1) with 4 in *; change (4 * 2) with 8 in *;
    change (4 * 3) with 12 in *; change (4 * 4) with 16 in *;
    change (4 * 5) with 20 in *; change (4 * 6) with 24 in *.
  unfold mbind at 1 2 3 4 5 6, M_bind, load.
  destruct (memory k !! to_uint32 (ebp + 4)) as [eip|];
    [|cbn; rewrite set_console_id; split; [reflexivity|intros [? ?]; discriminate]].
  destruct (memory k !! to_uint32 (ebp + 8)) as [a1|];
    [|cbn; rewrite set_console_id; split; [reflexivity|intros [? ?]; discriminate]].
  destruct (memory k !! to_uint32 (ebp + 12)) as [a2|];
    [|cbn; rewrite set_console_id; split; [reflexivity|intros [? ?]; discriminate]].
  destruct (memory k !! to_uint32 (ebp + 16)) as [a3|];
    [|cbn; rewrite set_console_id; split; [reflexivity|intros [? ?]; discriminate]].
  destruct (memory k !! to_uint32 (ebp + 20)) as [a4|];
    [|cbn; rewrite set_console_id; split; [reflexivity|intros [? ?]; discriminate]].
  destruct (memory k !! to_uint32 (ebp + 24)) as [a5|];
    [|cbn; rewrite set_console_id; split; [reflexivity|intros [? ?]; discriminate]].
  destruct (memory k !! ebp) as [saved|] eqn:Hs; [discriminate Hfr|].
  split; [|reflexivity].
  rewrite (bind_done _ _ _ _ _ (cprintf_run _ _ _)).
  rewrite (bind_done _ _ _ _ _ (cprintf_run _ _ _)).
  unfold mbind, M_bind, load. cbn [memory set_console]. rewrite Hs.
  rewrite !set_console_twice. cbn [console set_console].
  rewrite <- app_assoc. reflexivity.
Qed.

(** X6.  [mon_backtrace] has no guard against a chain that never reaches
    the sentinel: when every frame pointer reachable from the initial
    one is non-zero and readable (a cycle, for instance), the loop is
    still running after any number of steps, having printed one record
    per step. *)
Theorem mon_backtrace_without_sentinel (reach : Z -> Prop) (fuel : nat)
    (argc : Z) (argv : list string) (tf : Z) (k : kernel) :
  (forall p, reach p ->
     p <> 0 /\
     exists fr, frame_at (memory k) p = Some fr /\ reach (saved_frame_pointer fr)) ->
  reach (ebp_register k) ->
  exists k',
    mon_backtrace fuel argc argv tf k = (OutOfFuel, k') /\
    length (console k') = (length (console k) + 1 + 2 * fuel)%nat.
Proof.
  intros Hclosed Hstart. unfold mon_backtrace.
  rewrite (bind_done _ _ k (ebp_register k) k) by reflexivity.
  rewrite (bind_done _ _ _ _ _ (cprintf_run _ _ _)).
  assert (Hloop : forall n p k0,
            memory k0 = memory k -> reach p ->
            exists k', mon_backtrace_loop n p k0 = (OutOfFuel, k') /\
                       length (console k') = (length (console k0) + 2 * n)%nat).
  { induction n as [|n IH]; intros p k0 Hmem Hp;
      destruct (Hclosed p Hp) as (Hne & fr & Hfr & Hnext).
    - exists k0. cbn [mon_backtrace_loop].
      destruct (Z.eqb_spec p 0); [contradiction|]. split; [reflexivity|lia].
    - rewrite <- Hmem in Hfr.
      assert (Hwalk : frame_walk (memory k0) p [fr] (saved_frame_pointer fr)).
      { apply walk_frame; [assumption..|apply walk_here]. }
      change (S n) with (length [fr] + n)%nat.
      rewrite (mon_backtrace_loop_walk [fr] n _ _ _ Hwalk).
      destruct (IH (saved_frame_pointer fr)
                  (set_console (console k0 ++ concat (map frame_record [fr])) k0))
        as (k' & Hrun & Hlen); [exact Hmem|exact Hnext|].
      exists k'. split; [exact Hrun|]. rewrite Hlen.
      cbn [console set_console]. rewrite length_app. cbn. lia. }
  destruct (Hloop fuel (ebp_register k)
              (set_console (console k ++ [Cprintf "Stack backreace:\n" []]) k))
    as (k' & Hrun & Hlen); [reflexivity|exact Hstart|].
  exists k'. split; [exact Hrun|]. rewrite Hlen.
  cbn [console set_console]. rewrite length_app. cbn. lia.
Qed.

(** X7.  When the chain of saved frame pointers leads, after some frames,
    to a non-zero frame pointer whose frame is not readable,
    [mon_backtrace] does not return: it faults after the header and the
    records of the frames before.  Of the unreadable frame it prints
    nothing when one of the six words above the frame pointer is not
    readable, since they are read before the record is printed; when
    those six are readable, and so the saved frame pointer at the base
    is what cannot be read, it prints the full record of the frame and
    then faults. *)
Theorem mon_backtrace_unreadable_frame (fuel : nat) (argc : Z)
    (argv : list string) (tf : Z) (k : kernel) (frames : list frame) (ebp' : Z) :
  frame_walk (memory k) (ebp_register k) frames ebp' ->
  ebp' <> 0 ->
  frame_at (memory k) ebp' = None ->
  (length frames < fuel)%nat ->
  mon_backtrace fuel argc argv tf k =
    (Crash,
     set_console
       (console k ++ Cprintf "Stack backreace:\n" []
          :: concat (map frame_record frames) ++
             match words_above (memory k) ebp' with
             | Some (eip, args) => frame_record (mkFrame ebp' eip args 0)
             | None => []
             end) k)
  /\ (is_Some (words_above (memory k) ebp') -> memory k !! ebp' = None).
Proof.
  intros Hwalk Hne Hfr Hfuel. unfold mon_backtrace.
  rewrite (bind_done _ _ k (ebp_register k) k) by reflexivity.
  rewrite (bind_done _ _ _ _ _ (cprintf_run _ _ _)).
  replace fuel with (length frames + S (fuel - S (length frames)))%nat by lia.
  rewrite (mon_backtrace_loop_walk frames _ _ ebp') by exact Hwalk.
  destruct (mon_backtrace_loop_unreadable (fuel - S (length frames)) ebp'
              (set_console
                 (console (set_console
                    (console k ++ [Cprintf "Stack backreace:\n" []]) k) ++
                  concat (map frame_record frames))
                 (set_console (console k ++ [Cprintf "Stack backreace:\n" []]) k)))
    as (Hrun & Hsaved); [exact Hne|exact Hfr|].
  split; [|exact Hsaved]. rewrite Hrun.
  rewrite !set_console_twice. cbn [console set_console memory].
  rewrite <- !app_assoc. reflexivity.
Qed.

End UnwinderEdges.

Lemma range_pages_head i e p rest :
  range_pages i e = p :: rest -> i <= e /\ p = i /\ range_pages (i + PGSIZE) e = rest.
Proof.
  intros Hr. destruct (Z.le_gt_cases i e) as [Hle|Hgt].
  - rewrite range_pages_cons in Hr by exact Hle. injection Hr as <- <-. auto.
  - rewrite range_pages_nil in Hr by lia. discriminate Hr.
Qed.

Lemma mon_showmappings_loop_prefix e ok : forall fuel i k rest,
  0 <= i -> e < 2 ^ 32 - PGSIZE ->
  range_pages i e = ok ++ rest ->
  Forall (fun va => is_Some (kern_pgdir k !! PDX va)) ok ->
  exists i',
    0 <= i' /\ range_pages i' e = rest /\
    mon_showmappings_loop (length ok + fuel) i e k =
    mon_showmappings_loop fuel i' e
      (set_console
         (console k ++
          concat (map (fun va =>
                    page_report va (default 0 (leaf_entry (kern_pgdir k) va))) ok))
         k).
Proof.
  induction ok as [|p ok IH]; intros fuel i k rest Hi He Hr Hok.
  - exists i. cbn [map concat length Nat.add]. rewrite set_console_id. auto.
  - cbn [app] in Hr. apply range_pages_head in Hr as (Hle & -> & Hr).
    apply Forall_cons in Hok as [[pt Hpt] Hok].
    assert (Hleaf : leaf_entry (kern_pgdir k) i =
                    Some (default 0 (leaf_entry (kern_pgdir k) i))).
    { unfold leaf_entry, pte_at. cbn [fst snd]. rewrite Hpt. reflexivity. }
    cbn [length Nat.add].
    rewrite (mon_showmappings_loop_step _ i e k k _
               Hle (pgdir_walk_present i true k pt Hpt) Hleaf).
    rewrite to_uint32_small by (unfold PGSIZE in *; lia).
    destruct (IH fuel (i + PGSIZE)
                (set_console (console k ++ page_report i
                   (default 0 (leaf_entry (kern_pgdir k) i))) k) rest)
      as (i' & Hi' & Hr' & Hrun);
      [unfold PGSIZE; lia|exact He|exact Hr|exact Hok|].
    exists i'. split; [exact Hi'|]. split; [exact Hr'|]. rewrite Hrun.
    rewrite !set_console_twice. cbn [console set_console kern_pgdir map concat].
    rewrite <- app_assoc. reflexivity.
Qed.

(** X8.  [mon_showmappings] stops at the first page whose walk fails: the
    pages before it are reported, then "Page walk error!" is printed,
    the pages after it are not visited, 0 is returned and nothing but
    the console has changed. *)
Theorem mon_showmappings_walk_error (fuel : nat) (name a1 a2 : string)
    (more : list string) (tf : Z) (k : kernel) (ok rest : list Z) (bad : Z) :
  convert a2 < 2 ^ 32 - PGSIZE ->
  range_pages (convert a1) (convert a2) = ok ++ bad :: rest ->
  Forall (fun va => is_Some (kern_pgdir k !! PDX va)) ok ->
  kern_pgdir k !! PDX bad = None ->
  free_pages k = O ->
  (length ok < fuel)%nat ->
  mon_showmappings fuel 3 (name :: a1 :: a2 :: more) tf k =
  (Done 0,
   set_console
     (console k ++
      Cprintf "Got args: 0x%08x 0x%08x\n"
        [ArgInt (convert a1); ArgInt (convert a2)]
      :: concat (map (fun va =>
                   page_report va (default 0 (leaf_entry (kern_pgdir k) va))) ok)
      ++ [Cprintf "Page walk error!\n" []]) k).
Proof.
  intros He Hr Hok Hbad Hfree Hfuel.
  unfold mon_showmappings. cbn [Z.eqb Pos.eqb negb].
  rewrite (bind_done _ _ k a1 k) by reflexivity.
  rewrite (bind_done _ _ k a2 k) by reflexivity.
  rewrite (bind_done _ _ _ _ _ (cprintf_run _ _ _)).
  replace fuel with (length ok + S (fuel - S (length ok)))%nat by lia.
  destruct (mon_showmappings_loop_prefix (convert a2) ok
              (S (fuel - S (length ok))) (convert a1)
              (set_console (console k ++
                 [Cprintf "Got args: 0x%08x 0x%08x\n"
                    [ArgInt (convert a1); ArgInt (convert a2)]]) k)
              (bad :: rest))
    as (i' & Hi' & Hr' & Hrun);
    [rewrite convert_unfold; apply to_uint32_range|exact He|exact Hr|exact Hok|].
  rewrite Hrun. apply range_pages_head in Hr' as (Hle & -> & _).
  rewrite mon_showmappings_loop_error;
    [|exact Hle|apply pgdir_walk_fails; [exact Hbad|exact Hfree]].
  rewrite !set_console_twice. cbn [console set_console kern_pgdir].
  rewrite <- !app_assoc. reflexivity.
Qed.

Lemma tables_grow_refl k : tables_grow k k.
Proof. intros d. left. reflexivity. Qed.

Lemma tables_grow_trans k1 k2 k3 :
  tables_grow k1 k2 -> tables_grow k2 k3 -> tables_grow k1 k3.
Proof.
  intros Hd1 Hd2 d. destruct (Hd1 d) as [H1|[H1 H1']], (Hd2 d) as [H2|[H2 H2']].
  - left. congruence.
  - right. split; congruence.
  - right. split; congruence.
  - congruence.
Qed.

Lemma tables_grow_console out k : tables_grow k (set_console out k).
Proof. intros d. left. reflexivity. Qed.

Lemma pgdir_walk_grows va k : tables_grow k (pgdir_walk va true k).2.
Proof.
  destruct (kern_pgdir k !! PDX va) as [pt|] eqn:Hpt;
    [|destruct (free_pages k) as [|n] eqn:Hfree].
  - rewrite (pgdir_walk_present va true k pt Hpt). apply tables_grow_refl.
  - rewrite (pgdir_walk_fails va k Hpt Hfree). apply tables_grow_refl.
  - rewrite (pgdir_walk_allocates va k n Hpt Hfree).
    cbn [snd]. unfold tables_grow. cbn [kern_pgdir set_pgdir].
    intros d. destruct (decide (d = PDX va)) as [->|Hne].
    + right. rewrite lookup_insert_eq. auto.
    + left. apply lookup_insert_ne. congruence.
Qed.

Lemma mon_showmappings_loop_grows e fuel : forall i k,
  tables_grow k (mon_showmappings_loop fuel i e k).2.
Proof.
  induction fuel as [|fuel IH]; intros i k;
    destruct (Z.le_gt_cases i e) as [Hle|Hgt];
    try (rewrite mon_showmappings_loop_done by lia; apply tables_grow_refl).
  - cbn [mon_showmappings_loop]. destruct (Z.leb_spec i e); [|lia].
    apply tables_grow_refl.
  - pose proof (pgdir_walk_grows i k) as Hwalk.
    destruct (kern_pgdir k !! PDX i) as [pt|] eqn:Hpt;
      [|destruct (free_pages k) as [|n] eqn:Hfree].
    + destruct (pgdir_walk_succeeds i k) as (k1 & Hw & _ & Hleaf);
        [left; rewrite Hpt; eauto|].
      rewrite Hw in Hwalk.
      rewrite (mon_showmappings_loop_step fuel i e k k1 _ Hle Hw Hleaf).
      eapply tables_grow_trans; [exact Hwalk|].
      eapply tables_grow_trans; [|apply IH]. apply tables_grow_console.
    + rewrite (mon_showmappings_loop_error fuel i e k Hle
                 (pgdir_walk_fails i k Hpt Hfree)).
      apply tables_grow_console.
    + destruct (pgdir_walk_succeeds i k) as (k1 & Hw & _ & Hleaf);
        [right; lia|].
      rewrite Hw in Hwalk.
      rewrite (mon_showmappings_loop_step fuel i e k k1 _ Hle Hw Hleaf).
      eapply tables_grow_trans; [exact Hwalk|].
      eapply tables_grow_trans; [|apply IH]. apply tables_grow_console.
Qed.

Lemma tables_grow_leaf k k' va :
  tables_grow k k' ->
  default 0 (leaf_entry (kern_pgdir k') va) = default 0 (leaf_entry (kern_pgdir k) va).
Proof.
  intros Hd. unfold leaf_entry, pte_at. cbn [fst snd].
  destruct (Hd (PDX va)) as [->|[-> ->]]; [reflexivity|].
  rewrite lookup_empty. reflexivity.
Qed.

(** X9.  Whatever its arguments and however it ends, [mon_showmappings]
    never writes a leaf entry: every address reads the same entry after
    as before (zero where there is no table), every table that was in
    the directory is still there unchanged, and a directory slot that
    was empty is still empty or holds a table with no entry. *)
Theorem mon_showmappings_keeps_entries (fuel : nat) (argc : Z)
    (argv : list string) (tf : Z) (k : kernel) :
  let k' := (mon_showmappings fuel argc argv tf k).2 in
  (forall va,
     default 0 (leaf_entry (kern_pgdir k') va) =
     default 0 (leaf_entry (kern_pgdir k) va))
  /\ (forall d pt, kern_pgdir k !! d = Some pt -> kern_pgdir k' !! d = Some pt)
  /\ (forall d, kern_pgdir k !! d = None ->
                kern_pgdir k' !! d = None \/ kern_pgdir k' !! d = Some ∅).
Proof.
  assert (Hgrow : tables_grow k (mon_showmappings fuel argc argv tf k).2).
  { unfold mon_showmappings. destruct (negb (argc =? 3)).
    - apply tables_grow_console.
    - unfold mbind at 1, M_bind, arg.
      destruct (argv !! 1%nat) as [a1|]; [|apply tables_grow_refl].
      unfold mbind at 1, M_bind.
      destruct (argv !! 2%nat) as [a2|]; [|apply tables_grow_refl].
      rewrite (bind_done _ _ _ _ _ (cprintf_run _ _ _)).
      eapply tables_grow_trans; [|apply mon_showmappings_loop_grows].
      apply tables_grow_console. }
  cbv zeta. split; [intros va; apply tables_grow_leaf, Hgrow|]. split.
  - intros d pt Hpt. destruct (Hgrow d) as [->|[Hnone _]]; [exact Hpt|congruence].
  - intros d Hnone. destruct (Hgrow d) as [->|[_ ->]]; auto.
Qed.

Lemma read_pte_at k d t pt :
  kern_pgdir k !! d = Some pt ->
  read_pte (Some (d, t)) k = (Done (default 0 (pt !! t)), k).
Proof. intros Hpt. unfold read_pte, pte_at. cbn [fst snd]. rewrite Hpt. reflexivity. Qed.

Lemma write_pte_at k d t pt v :
  kern_pgdir k !! d = Some pt ->
  write_pte (Some (d, t)) v k =
  (Done tt, set_pgdir (<[d := <[t := v]> pt]> (kern_pgdir k)) (free_pages k) k).
Proof. intros Hpt. unfold write_pte. cbn [fst snd]. rewrite Hpt. reflexivity. Qed.

Lemma setPerm_state name a b rest tf k :
  is_Some (kern_pgdir k !! PDX (convert a)) \/ free_pages k <> O ->
  setPerm 3 (name :: a :: b :: rest) tf k =
  (Done 0,
   set_pgdir
     (<[PDX (convert a) :=
          <[PTX (convert a) :=
              perm_written
                (default 0 (table_of (kern_pgdir k) (PDX (convert a))
                              !! PTX (convert a)))
                (convert b)]>
            (table_of (kern_pgdir k) (PDX (convert a)))]> (kern_pgdir k))
     (free_after_walk k (convert a)) k).
Proof.
  intros Hok. unfold setPerm. cbn [Z.eqb Pos.eqb negb].
  rewrite (bind_done _ _ k a k) by reflexivity.
  unfold table_of, free_after_walk.
  destruct (kern_pgdir k !! PDX (convert a)) as [pt|] eqn:Hpt.
  - rewrite (bind_done _ _ _ _ _ (pgdir_walk_present _ true k pt Hpt)).
    rewrite (bind_done _ _ _ _ _ (read_pte_at k _ _ pt Hpt)).
    rewrite (bind_done _ _ _ _ _ (write_pte_at k _ _ pt _ Hpt)).
    rewrite (bind_done _ _ _ b _) by reflexivity.
    erewrite bind_done
      by (apply read_pte_at; cbn [kern_pgdir set_pgdir]; apply lookup_insert_eq).
    erewrite bind_done
      by (apply write_pte_at; cbn [kern_pgdir set_pgdir]; apply lookup_insert_eq).
    unfold set_pgdir. cbn [console memory kern_pgdir free_pages ebp_register default].
    rewrite lookup_insert_eq. cbn [default]. rewrite !insert_insert_eq.
    reflexivity.
  - destruct Hok as [[pt Hs]|Hfree]; [discriminate Hs|].
    destruct (free_pages k) as [|n] eqn:Hn; [contradiction|].
    rewrite (bind_done _ _ _ _ _ (pgdir_walk_allocates _ k n Hpt Hn)).
    erewrite bind_done
      by (apply read_pte_at; cbn [kern_pgdir set_pgdir]; apply lookup_insert_eq).
    erewrite bind_done
      by (apply write_pte_at; cbn [kern_pgdir set_pgdir]; apply lookup_insert_eq).
    rewrite (bind_done _ _ _ b _) by reflexivity.
    erewrite bind_done
      by (apply read_pte_at; cbn [kern_pgdir set_pgdir]; apply lookup_insert_eq).
    erewrite bind_done
      by (apply write_pte_at; cbn [kern_pgdir set_pgdir]; apply lookup_insert_eq).
    unfold set_pgdir. cbn [console memory kern_pgdir free_pages ebp_register default pred].
    rewrite lookup_insert_eq, lookup_empty. cbn [default].
    rewrite !insert_insert_eq. reflexivity.
Qed.

Lemma perm_written_field old bits :
  Z.land (perm_written old bits) 4095 = Z.land bits 4095.
Proof.
  unfold perm_written. rewrite Z.land_lor_distr_l, <- Z.land_assoc.
  change (Z.land (Z.lnot 4095) 4095) with 0.
  rewrite Z.land_0_r. apply Z.lor_0_l.
Qed.

Lemma perm_written_frame old bits :
  PTE_ADDR (perm_written old bits) = Z.lor (PTE_ADDR old) (PTE_ADDR bits).
Proof.
  unfold perm_written, PTE_ADDR.
  rewrite Z.land_lor_distr_l, <- Z.land_assoc, Z.land_diag. reflexivity.
Qed.

(** X10.  [setPerm] does not check its value: when the walk yields a
    leaf entry, the entry becomes [(old & ~0xfff) | value], so its low
    12 bits are those of the value and any higher bits of the value are
    or-ed into the frame address; the entries of all other pages and
    the console are unchanged. *)
Theorem setPerm_unchecked_value (name a b : string) (rest : list string)
    (tf : Z) (k : kernel) :
  is_Some (kern_pgdir k !! PDX (convert a)) \/ free_pages k <> O ->
  let addr := convert a in
  let old := default 0 (leaf_entry (kern_pgdir k) addr) in
  let new := Z.lor (Z.land old (Z.lnot 4095)) (convert b) in
  exists k1,
    setPerm 3 (name :: a :: b :: rest) tf k = (Done 0, k1) /\
    console k1 = console k /\
    leaf_entry (kern_pgdir k1) addr = Some new /\
    Z.land new 4095 = Z.land (convert b) 4095 /\
    PTE_ADDR new = Z.lor (PTE_ADDR old) (PTE_ADDR (convert b)) /\
    forall va,
      PDX va <> PDX addr \/ PTX va <> PTX addr ->
      default 0 (leaf_entry (kern_pgdir k1) va) =
      default 0 (leaf_entry (kern_pgdir k) va).
Proof.
  intros Hok addr old new. eexists. split; [apply setPerm_state, Hok|].
  fold addr.
  assert (Hold : default 0 (table_of (kern_pgdir k) (PDX addr) !! PTX addr) = old).
  { unfold old, leaf_entry, pte_at, table_of. cbn [fst snd].
    destruct (kern_pgdir k !! PDX addr); [reflexivity|].
    cbn [default]. rewrite lookup_empty. reflexivity. }
  rewrite Hold. fold (perm_written old (convert b)). 
  change (Z.lor (Z.land old (Z.lnot 4095)) (convert b))
    with (perm_written old (convert b)) in new.
  split; [reflexivity|].
  cbn [kern_pgdir set_pgdir]. split; [|split; [|split]].
  - unfold leaf_entry, pte_at. cbn [fst snd].
    rewrite !lookup_insert_eq. reflexivity.
  - apply perm_written_field.
  - apply perm_written_frame.
  - intros va Hva. unfold leaf_entry, pte_at. cbn [fst snd].
    destruct (decide (PDX va = PDX addr)) as [Hd|Hd].
    + rewrite Hd, lookup_insert_eq. 
      destruct Hva as [Hva|Hva]; [contradiction|].
      rewrite lookup_insert_ne by congruence.
      unfold table_of. destruct (kern_pgdir k !! PDX addr); [reflexivity|].
      cbn [default]. rewrite lookup_empty. reflexivity.
    + rewrite lookup_insert_ne by congruence. reflexivity.
Qed.

(** X11.  Two [setPerm] on the same address: when the first value fits
    the 12-bit field, the state after both is the state after the
    second alone. *)
Theorem setPerm_last_value_wins (name a b1 b2 : string) (rest : list string)
    (tf : Z) (k : kernel) :
  convert b1 < 4096 ->
  is_Some (kern_pgdir k !! PDX (convert a)) \/ free_pages k <> O ->
  setPerm 3 (name :: a :: b2 :: rest) tf
    (setPerm 3 (name :: a :: b1 :: rest) tf k).2 =
  setPerm 3 (name :: a :: b2 :: rest) tf k.
Proof.
  intros Hb1 Hok.
  assert (Hbits : 0 <= convert b1 < 4096).
  { split; [|exact Hb1]. rewrite convert_unfold. apply to_uint32_range. }
  rewrite (setPerm_state name a b1 rest tf k Hok). cbn [snd].
  rewrite setPerm_state
    by (left; cbn [kern_pgdir set_pgdir]; rewrite lookup_insert_eq; eauto).
  rewrite (setPerm_state name a b2 rest tf k Hok).
  unfold set_pgdir, table_of, free_after_walk.
  cbn [console memory kern_pgdir free_pages ebp_register].
  assert (Hdef : forall (A : Type) (d x : A), default d (Some x) = x)
    by reflexivity.
  rewrite !lookup_insert_eq, !Hdef, !lookup_insert_eq, !Hdef, !insert_insert_eq.
  set (old := default 0 (default ∅ (kern_pgdir k !! PDX (convert a))
                           !! PTX (convert a))).
  assert (Hnew : perm_written (perm_written old (convert b1)) (convert b2) =
                 perm_written old (convert b2)).
  { unfold perm_written at 1 3. f_equal.
    exact (perm_frame_kept old (convert b1) Hbits). }
  rewrite Hnew. reflexivity.
Qed.

Lemma to_int_small z : - 2 ^ 31 <= z < 2 ^ 31 -> to_int z = z.
Proof. intros Hz. unfold to_int. rewrite Z.mod_small by lia. lia. Qed.

Lemma dump_loop_prefix shown lim entries : forall fuel cur k,
  0 <= cur ->
  cur + 4 * Z.of_nat (length entries) <= lim ->
  lim < 2 ^ 32 ->
  dumped shown (memory k) cur entries ->
  dump_loop shown (length entries + fuel) cur lim k =
  dump_loop shown fuel (cur + 4 * Z.of_nat (length entries)) lim
    (set_console (console k ++ map dump_line entries) k).
Proof.
  induction entries as [|[a v] entries IH]; intros fuel cur k Hcur Hlim Hmax Hd.
  - cbn [length map Nat.add]. rewrite set_console_id. f_equal. cbn. lia.
  - inversion Hd as [|? ? ? ? Ha Hv Hrest]; subst.
    cbn [length] in Hlim. rewrite Nat2Z.inj_succ in Hlim.
    cbn [length Nat.add dump_loop].
    destruct (Z.ltb_spec cur lim); [|lia].
    rewrite Ha.
    rewrite (bind_done _ _ _ _ _ (load_done k _ _ Hv)).
    rewrite (bind_done _ _ _ _ _ (cprintf_run _ _ _)).
    rewrite to_uint32_small by lia.
    rewrite IH; [|lia|lia|exact Hmax|exact Hrest].
    rewrite !set_console_twice. cbn [console set_console map].
    rewrite <- app_assoc, Nat2Z.inj_succ.
    replace (cur + 4 + 4 * Z.of_nat (length entries))
      with (cur + 4 * Z.succ (Z.of_nat (length entries))) by lia.
    reflexivity.
Qed.

Lemma dump_loop_end shown fuel cur lim k :
  lim <= cur -> dump_loop shown fuel cur lim k = (Done 0, k).
Proof.
  intros Hle. destruct fuel; cbn [dump_loop];
    destruct (Z.ltb_spec cur lim); try lia; reflexivity.
Qed.

Section Dumper.
Context `{KernelServices}.

(** X12.  [vvm addr n], when the [n] words from [addr] on are readable
    and end below 2^32, prints exactly [n] lines, one per word in
    address order with the word's address and value, and returns 0. *)
Theorem vvm_dumps_words (fuel : nat) (name a n : string) (rest : list string)
    (tf : Z) (k : kernel) (entries : list (Z * Z)) :
  convert a + 4 * convert n < 2 ^ 32 ->
  dumped Some (memory k) (convert a) entries ->
  Z.of_nat (length entries) = convert n ->
  (length entries <= fuel)%nat ->
  vvm fuel 3 (name :: a :: n :: rest) tf k =
  (Done 0, set_console (console k ++ map dump_line entries) k).
Proof.
  intros Hmax Hd Hlen Hfuel.
  assert (Ha : 0 <= convert a < 2 ^ 32)
    by (rewrite convert_unfold; apply to_uint32_range).
  assert (Hn : 0 <= convert n) by lia.
  unfold vvm. cbn [Z.eqb Pos.eqb negb].
  rewrite (bind_done _ _ k a k) by reflexivity.
  rewrite (bind_done _ _ k n k) by reflexivity.
  rewrite to_uint32_to_int, (to_uint32_small (convert a)) by exact Ha.
  rewrite (to_int_small (convert n)) by lia.
  rewrite to_uint32_small by lia.
  replace fuel with (length entries + (fuel - length entries))%nat by lia.
  rewrite dump_loop_prefix; [|lia|lia|lia|exact Hd].
  apply dump_loop_end. lia.
Qed.

(** X13.  [vvm] validates nothing: when a word of the range is not
    readable, the words before it are printed and the kernel faults at
    that word. *)
Theorem vvm_faults_at_unreadable_word (fuel : nat) (name a n : string)
    (rest : list string) (tf : Z) (k : kernel) (entries : list (Z * Z)) :
  convert a + 4 * convert n < 2 ^ 32 ->
  dumped Some (memory k) (convert a) entries ->
  Z.of_nat (length entries) < convert n ->
  memory k !! (convert a + 4 * Z.of_nat (length entries)) = None ->
  (length entries < fuel)%nat ->
  vvm fuel 3 (name :: a :: n :: rest) tf k =
  (Crash, set_console (console k ++ map dump_line entries) k).
Proof.
  intros Hmax Hd Hlen Hnone Hfuel.
  assert (Ha : 0 <= convert a < 2 ^ 32)
    by (rewrite convert_unfold; apply to_uint32_range).
  unfold vvm. cbn [Z.eqb Pos.eqb negb].
  rewrite (bind_done _ _ k a k) by reflexivity.
  rewrite (bind_done _ _ k n k) by reflexivity.
  rewrite to_uint32_to_int, (to_uint32_small (convert a)) by exact Ha.
  rewrite (to_int_small (convert n)) by lia.
  rewrite to_uint32_small by lia.
  replace fuel with (length entries + S (fuel - S (length entries)))%nat by lia.
  rewrite dump_loop_prefix; [|lia|lia|lia|exact Hd].
  cbn [dump_loop].
  destruct (Z.ltb_spec (convert a + 4 * Z.of_nat (length entries))
              (convert a + 4 * convert n)); [|lia].
  unfold mbind, M_bind, load. cbn [memory set_console]. rewrite Hnone.
  reflexivity.
Qed.

(** X14.  [vpm pa n] reads through [KADDR(pa)]: when [KADDR] panics
    nothing is printed; otherwise, the [n] words from the translated
    address on being readable and translated back by [PADDR], it prints
    exactly [n] lines, each with what [PADDR] gives for the word's
    address and the word's value, and returns 0. *)
Theorem vpm_dumps_translated_words (fuel : nat) (name a n : string)
    (rest : list string) (tf : Z) (k : kernel) :
  (KADDR (convert a) = None ->
   vpm fuel 3 (name :: a :: n :: rest) tf k = (Crash, k))
  /\ (forall p entries,
        KADDR (convert a) = Some p ->
        0 <= p ->
        p + 4 * convert n < 2 ^ 32 ->
        dumped PADDR (memory k) p entries ->
        Z.of_nat (length entries) = convert n ->
        (length entries <= fuel)%nat ->
        vpm fuel 3 (name :: a :: n :: rest) tf k =
        (Done 0, set_console (console k ++ map dump_line entries) k)).
Proof.
  assert (Ha : 0 <= convert a < 2 ^ 32)
    by (rewrite convert_unfold; apply to_uint32_range).
  split.
  - intros Hk. unfold vpm. cbn [Z.eqb Pos.eqb negb].
    rewrite (bind_done _ _ k a k) by reflexivity.
    rewrite (bind_done _ _ k n k) by reflexivity.
    rewrite to_uint32_to_int, (to_uint32_small (convert a)), Hk by exact Ha.
    reflexivity.
  - intros p entries Hk Hp Hmax Hd Hlen Hfuel.
    unfold vpm. cbn [Z.eqb Pos.eqb negb].
    rewrite (bind_done _ _ k a k) by reflexivity.
    rewrite (bind_done _ _ k n k) by reflexivity.
    rewrite to_uint32_to_int, (to_uint32_small (convert a)), Hk by exact Ha.
    rewrite (to_int_small (convert n)) by lia.
    rewrite to_uint32_small by lia.
    replace fuel with (length entries + (fuel - length entries))%nat by lia.
    rewrite dump_loop_prefix; [|lia|lia|lia|exact Hd].
    apply dump_loop_end. lia.
Qed.

End Dumper.

Section Effects.
Context (R : kernel -> kernel -> Prop).
Hypothesis R_refl : forall k, R k k.
Hypothesis R_trans : forall k1 k2 k3, R k1 k2 -> R k2 k3 -> R k1 k3.
Hypothesis R_cprintf :
  forall fmt args k, R k (set_console (console k ++ [Cprintf fmt args]) k).

Lemma preserves_bind {A B} (m : M A) (f : A -> M B) :
  preserves R m -> (forall a, preserves R (f a)) -> preserves R (m ≫= f).
Proof.
  intros Hm Hf k. specialize (Hm k). unfold mbind, M_bind.
  destruct (m k) as [[a| |] k1]; cbn [snd] in *; [|exact Hm|exact Hm].
  eapply R_trans; [exact Hm|apply Hf].
Qed.

Lemma preserves_pure {A} (m : M A) :
  (forall k, (m k).2 = k) -> preserves R m.
Proof. intros Hm k. rewrite Hm. apply R_refl. Qed.

Lemma preserves_mret {A} (a : A) : preserves R (mret a : M A).
Proof. apply preserves_pure. reflexivity. Qed.

Lemma preserves_cprintf fmt args : preserves R (cprintf fmt args).
Proof. intros k. apply R_cprintf. Qed.

Lemma preserves_load addr : preserves R (load addr).
Proof.
  apply preserves_pure. intros k. unfold load.
  destruct (memory k !! addr); reflexivity.
Qed.

Lemma preserves_arg argv i : preserves R (arg argv i).
Proof.
  apply preserves_pure. intros k. unfold arg.
  destruct (argv !! i); reflexivity.
Qed.

Lemma preserves_mon_help_loop {F} (table : list (Command F)) :
  preserves R (mon_help_loop table).
Proof.
  induction table as [|c table IH]; cbn [mon_help_loop].
  - apply preserves_mret.
  - apply preserves_bind; [apply preserves_cprintf|intros _; exact IH].
Qed.

Ltac preserve :=
  repeat first
    [ apply preserves_mret
    | apply preserves_cprintf
    | apply preserves_load
    | apply preserves_arg
    | apply preserves_bind; [|intros ?] ].

Lemma preserves_dump_loop shown lim fuel : forall cur,
  preserves R (dump_loop shown fuel cur lim).
Proof.
  induction fuel as [|fuel IH]; intros cur; cbn [dump_loop];
    destruct (cur <? lim); try apply preserves_mret.
  - apply preserves_pure. reflexivity.
  - destruct (shown cur); [|apply preserves_pure; reflexivity].
    preserve. apply IH.
Qed.

Section EffectsOfReaders.
Context `{KernelServices}.

Lemma preserves_mon_backtrace_loop fuel : forall ebp,
  preserves R (mon_backtrace_loop fuel ebp).
Proof.
  induction fuel as [|fuel IH]; intros ebp; cbn [mon_backtrace_loop];
    destruct (ebp =? 0); try apply preserves_mret.
  - apply preserves_pure. reflexivity.
  - preserve. apply IH.
Qed.

Lemma preserves_readers fuel f argc argv tf :
  writes_tables f = false -> preserves R (call fuel f argc argv tf).
Proof.
  destruct f; try discriminate; intros _; cbn [call].
  - unfold mon_help. apply preserves_bind;
      [apply preserves_mon_help_loop|intros _; apply preserves_mret].
  - unfold mon_kerninfo. preserve.
  - unfold mon_backtrace. preserve.
    + apply preserves_pure. reflexivity.
    + apply preserves_mon_backtrace_loop.
  - unfold vvm. destruct (negb (argc =? 3)); preserve.
    apply preserves_dump_loop.
  - unfold vpm. destruct (negb (argc =? 3)); preserve.
    destruct (KADDR _); [apply preserves_dump_loop|apply preserves_pure; reflexivity].
Qed.

End EffectsOfReaders.

Lemma preserves_runcmd_in {F} (invoke : F -> handler) (table : list (Command F))
    buf tf :
  (forall f argc argv, preserves R (invoke f argc argv tf)) ->
  preserves R (runcmd_in invoke table buf tf).
Proof.
  intros Hinv. unfold runcmd_in.
  destruct (parse_args (MAXARGS - 1) buf []) as [[|arg0 argv]|]; preserve.
  destruct (lookup_command table arg0); [apply Hinv|preserve].
Qed.

Lemma preserves_monitor_loop {F} (invoke : F -> handler)
    (table : list (Command F)) tf input :
  (forall f argc argv, preserves R (invoke f argc argv tf)) ->
  preserves R (monitor_loop invoke table input tf).
Proof.
  intros Hinv. induction input as [|[buf|] input IH]; cbn [monitor_loop].
  - apply preserves_mret.
  - apply preserves_bind; [apply preserves_runcmd_in, Hinv|].
    intros r. destruct (r <? 0); [apply preserves_mret|exact IH].
  - exact IH.
Qed.

End Effects.

Lemma prints_lines_refl k : prints_lines k k.
Proof. exists []. rewrite app_nil_r. split; reflexivity. Qed.

Lemma prints_lines_trans k1 k2 k3 :
  prints_lines k1 k2 -> prints_lines k2 k3 -> prints_lines k1 k3.
Proof.
  intros (m1 & Hc1 & Hl1) (m2 & Hc2 & Hl2). exists (m1 ++ m2). split.
  - rewrite Hc2, Hc1, app_assoc. reflexivity.
  - rewrite forallb_app, Hl1, Hl2. reflexivity.
Qed.

Lemma prints_lines_cprintf fmt args k :
  prints_lines k (set_console (console k ++ [Cprintf fmt args]) k).
Proof. exists [Cprintf fmt args]. split; reflexivity. Qed.

Lemma prints_lines_same_console k k' : console k' = console k -> prints_lines k k'.
Proof. intros Hc. exists []. rewrite app_nil_r. split; [exact Hc|reflexivity]. Qed.

Lemma keeps_tables_refl k : keeps_tables k k.
Proof. repeat split. apply prints_lines_refl. Qed.

Lemma keeps_tables_trans k1 k2 k3 :
  keeps_tables k1 k2 -> keeps_tables k2 k3 -> keeps_tables k1 k3.
Proof.
  intros (Hp1 & Hf1 & Hl1) (Hp2 & Hf2 & Hl2).
  repeat split; [congruence..|]. eapply prints_lines_trans; eassumption.
Qed.

Lemma keeps_tables_cprintf fmt args k :
  keeps_tables k (set_console (console k ++ [Cprintf fmt args]) k).
Proof. repeat split. apply prints_lines_cprintf. Qed.

Lemma prints_lines_pgdir_walk va create : preserves prints_lines (pgdir_walk va create).
Proof.
  intros k. apply prints_lines_same_console. unfold pgdir_walk.
  destruct (kern_pgdir k !! PDX va); [reflexivity|].
  destruct create; [|reflexivity].
  destruct (free_pages k); reflexivity.
Qed.

Lemma prints_lines_read_pte ptet : preserves prints_lines (read_pte ptet).
Proof.
  apply preserves_pure; [apply prints_lines_refl|].
  intros k. unfold read_pte. destruct ptet as [r|]; [|reflexivity].
  destruct (pte_at (kern_pgdir k) r); reflexivity.
Qed.

Lemma prints_lines_write_pte ptet v : preserves prints_lines (write_pte ptet v).
Proof.
  intros k. apply prints_lines_same_console.
  unfold write_pte. destruct ptet as [r|]; [|reflexivity].
  destruct (kern_pgdir k !! r.1); reflexivity.
Qed.

Ltac lines :=
  repeat first
    [ apply (preserves_mret prints_lines prints_lines_refl)
    | apply (preserves_cprintf prints_lines prints_lines_cprintf)
    | apply (preserves_arg prints_lines prints_lines_refl)
    | apply prints_lines_pgdir_walk
    | apply prints_lines_read_pte
    | apply prints_lines_write_pte
    | apply (preserves_bind prints_lines prints_lines_trans); [|intros ?] ].

Lemma prints_lines_showmappings_loop e fuel : forall i,
  preserves prints_lines (mon_showmappings_loop fuel i e).
Proof.
  induction fuel as [|fuel IH]; intros i; cbn [mon_showmappings_loop];
    destruct (i <=? e); try (lines; fail).
  - apply preserves_pure; [apply prints_lines_refl|reflexivity].
  - lines. destruct a as [r|]; lines.
    + destruct (negb (Z.land a0 PTE_P =? 0)); lines.
    + apply IH.
Qed.

Section EffectsOfCommands.
Context `{KernelServices}.

Lemma keeps_tables_readers fuel f argc argv tf :
  writes_tables f = false -> preserves keeps_tables (call fuel f argc argv tf).
Proof.
  apply (preserves_readers keeps_tables keeps_tables_refl keeps_tables_trans
           keeps_tables_cprintf).
Qed.

Lemma prints_lines_call fuel f argc argv tf :
  preserves prints_lines (call fuel f argc argv tf).
Proof.
  destruct (writes_tables f) eqn:Hf.
  - destruct f; try discriminate Hf; cbn [call].
    + unfold mon_showmappings. destruct (negb (argc =? 3)); lines.
      apply prints_lines_showmappings_loop.
    + unfold setPerm. destruct (negb (argc =? 3)); lines.
  - intros k. apply (keeps_tables_readers fuel f argc argv tf Hf k).
Qed.

(** X15.  No command dumps a trap frame or removes console output:
    however a handler of the table ends, the console is what it was
    followed by formatted lines only.  [help], [kerninfo], [backtrace],
    [vvm] and [vpm] never walk the page table: however they end, the
    page directory and the allocator are as they were. *)
Theorem commands_effects (fuel : nat) (f : mon_func) (argc : Z)
    (argv : list string) (tf : Z) (k : kernel) :
  let k' := (call fuel f argc argv tf k).2 in
  (exists more, console k' = console k ++ more /\ forallb is_line more = true)
  /\ (writes_tables f = false ->
      kern_pgdir k' = kern_pgdir k /\ free_pages k' = free_pages k).
Proof.
  cbv zeta. split; [apply prints_lines_call|].
  intros Hf.
  destruct (keeps_tables_readers fuel f argc argv tf Hf k) as (Hp & Hfree & _).
  split; assumption.
Qed.

(** X16.  Whatever the input and however it ends, [monitor] keeps the
    output that was there and first prints its two banner lines,
    followed by the dump of the trap frame exactly when the pointer is
    not null; all that follows is formatted lines of the commands, so
    the trap frame is dumped once for a non-null pointer and never for
    a null one. *)
Theorem monitor_banner_first (fuel : nat) (input : list (option string))
    (tf : Z) (k : kernel) :
  let k' := (monitor fuel input tf k).2 in
  exists more,
    console k' = console k ++ banner tf ++ more
    /\ forallb is_line more = true
    /\ filter (fun e => is_line e = false) (console k') =
       filter (fun e => is_line e = false) (console k) ++
       (if tf =? 0 then [] else [PrintTrapframe tf]).
Proof.
  cbv zeta. unfold monitor, monitor_in.
  rewrite (bind_done _ _ _ _ _ (cprintf_run _ _ _)).
  rewrite (bind_done _ _ _ _ _ (cprintf_run _ _ _)).
  set (k2 := set_console _ _).
  assert (Hloop : forall k0, prints_lines k0
            (monitor_loop (call fuel) commands input tf k0).2).
  { apply (preserves_monitor_loop prints_lines prints_lines_refl
             prints_lines_trans prints_lines_cprintf).
    intros f0 argc argv. apply prints_lines_call. }
  assert (Hnone : forall more, forallb is_line more = true ->
            filter (fun e => is_line e = false) more = []).
  { induction more as [|e more IH]; [reflexivity|]. cbn [forallb].
    intros [He Hmore]%andb_prop. rewrite filter_cons, He.
    destruct (decide (true = false)) as [?|_]; [discriminate|]. auto. }
  unfold banner. destruct (tf =? 0).
  - rewrite (bind_done _ _ k2 tt k2) by reflexivity.
    destruct (Hloop k2) as (more & Hc & Hl).
    exists more. rewrite Hc. subst k2. cbn [console set_console].
    rewrite app_nil_r, <- !app_assoc. split; [reflexivity|]. split; [exact Hl|].
    rewrite !filter_app, (Hnone more Hl). reflexivity.
  - erewrite bind_done by reflexivity.
    destruct (Hloop (set_console (console k2 ++ [PrintTrapframe tf]) k2))
      as (more & Hc & Hl).
    exists more. rewrite Hc. subst k2. cbn [console set_console].
    rewrite <- !app_assoc. split; [reflexivity|]. split; [exact Hl|].
    rewrite !filter_app, (Hnone more Hl). reflexivity.
Qed.

End EffectsOfCommands.

Lemma runcmd_in_blank {F} (invoke : F -> handler) (table : list (Command F))
    buf tf k :
  string_forall is_separator buf = true ->
  runcmd_in invoke table buf tf k = (Done 0, k).
Proof.
  intros Hbuf. unfold runcmd_in.
  destruct (parse_args_count (MAXARGS - 1) buf []) as [Hfit _].
  rewrite count_tokens_whitespace in Hfit by exact Hbuf.
  destruct Hfit as (toks & -> & Hlen); [lia|].
  destruct toks; [reflexivity|discriminate Hlen].
Qed.

(** X17.  Null reads and lines of whitespace only leave no trace: the
    loop of [monitor] ends the same way and in the same state when they
    are removed from the input. *)
Theorem monitor_loop_skips_blank_lines {F} (invoke : F -> handler)
    (table : list (Command F)) (input : list (option string)) (tf : Z)
    (k : kernel) :
  monitor_loop invoke table
    (filter (fun line => is_blank_line line = false) input) tf k =
  monitor_loop invoke table input tf k.
Proof.
  revert k. induction input as [|[buf|] input IH]; intros k.
  - reflexivity.
  - rewrite filter_cons. cbn [is_blank_line].
    destruct (string_forall is_separator buf) eqn:Hbuf.
    + rewrite decide_False by discriminate.
      rewrite IH. cbn [monitor_loop].
      rewrite (bind_done _ _ _ _ _ (runcmd_in_blank invoke table buf tf k Hbuf)).
      reflexivity.
    + rewrite decide_True by reflexivity. cbn [monitor_loop].
      unfold mbind, M_bind.
      destruct (runcmd_in invoke table buf tf k) as [[r| |] k1]; try reflexivity.
      destruct (r <? 0); [reflexivity|apply IH].
  - rewrite filter_cons. cbn [is_blank_line].
    rewrite decide_False by discriminate. rewrite IH. reflexivity.
Qed.

(** X18.  After [setPerm] with a value whose present bit is clear,
    [showmappings] of that address reports it as not mapped, whatever
    the entry held before. *)
Theorem setPerm_clear_present_unmaps (fuel : nat) (n0 n1 a b : string)
    (tf : Z) (k : kernel) :
  Z.land (convert b) PTE_P = 0 ->
  is_Some (kern_pgdir k !! PDX (convert a)) \/ free_pages k <> O ->
  convert a < 2 ^ 32 - PGSIZE ->
  let k1 := (setPerm 3 [n0; a; b] tf k).2 in
  mon_showmappings (S fuel) 3 [n1; a; a] tf k1 =
  (Done 0,
   set_console
     (console k ++
      [ Cprintf "Got args: 0x%08x 0x%08x\n"
          [ArgInt (convert a); ArgInt (convert a)];
        Cprintf "Virtual address : 0x%08x " [ArgInt (convert a)];
        Cprintf "is not mapped!\n" [] ]) k1).
Proof.
  intros Hclear Hok Htop. cbv zeta.
  assert (Ha : 0 <= convert a) by (rewrite convert_unfold; apply to_uint32_range).
  rewrite (setPerm_state n0 a b [] tf k Hok). cbn [snd].
  set (new := perm_written _ (convert b)).
  set (k1 := set_pgdir _ _ k).
  assert (Hpt : kern_pgdir k1 !! PDX (convert a) =
                Some (<[PTX (convert a) := new]>
                        (table_of (kern_pgdir k) (PDX (convert a))))).
  { subst k1. cbn [kern_pgdir set_pgdir]. apply lookup_insert_eq. }
  assert (Hleaf : leaf_entry (kern_pgdir k1) (convert a) = Some new).
  { unfold leaf_entry, pte_at. cbn [fst snd]. rewrite Hpt, lookup_insert_eq.
    reflexivity. }
  assert (Hnew : Z.land new PTE_P = 0).
  { change PTE_P with (Z.land 4095 PTE_P). rewrite Z.land_assoc.
    unfold new. rewrite perm_written_field, <- Z.land_assoc. exact Hclear. }
  unfold mon_showmappings. cbn [Z.eqb Pos.eqb negb].
  rewrite (bind_done _ _ k1 a k1) by reflexivity.
  rewrite (bind_done _ _ k1 a k1) by reflexivity.
  rewrite (bind_done _ _ _ _ _ (cprintf_run _ _ _)).
  erewrite mon_showmappings_loop_step;
    [|lia|eapply pgdir_walk_present; exact Hpt|exact Hleaf].
  rewrite to_uint32_small by (unfold PGSIZE in *; lia).
  rewrite mon_showmappings_loop_done by (unfold PGSIZE; lia).
  unfold page_report. rewrite Hnew. cbn [Z.eqb negb].
  rewrite set_console_twice. cbn [console set_console].
  rewrite <- app_assoc. reflexivity.
Qed.

Lemma wrapped_page_below_end i e o :
  0 <= i < 2 ^ 32 -> i mod PGSIZE = o ->
  2 ^ 32 - PGSIZE <= e -> o <= e mod PGSIZE -> e < 2 ^ 32 ->
  i <= e.
Proof.
  unfold PGSIZE. intros Hi Ho He Hoe Hmax.
  pose proof (Z.div_mod i 4096 ltac:(lia)) as Hdi.
  pose proof (Z.div_mod e 4096 ltac:(lia)) as Hde.
  pose proof (Z.mod_pos_bound e 4096 ltac:(lia)).
  pose proof (Z.mod_pos_bound i 4096 ltac:(lia)).
  assert (i / 4096 <= e / 4096); [|lia].
  assert (e / 4096 >= 1048575) by lia.
  assert (i / 4096 <= 1048575) by lia. lia.
Qed.

Lemma next_page_offset i :
  0 <= i < 2 ^ 32 ->
  0 <= to_uint32 (i + PGSIZE) < 2 ^ 32 /\
  to_uint32 (i + PGSIZE) mod PGSIZE = i mod PGSIZE.
Proof.
  intros Hi. split; [apply to_uint32_range|].
  unfold to_uint32, PGSIZE.
  rewrite Z.mod_mod_divide by (exists 1048576; reflexivity).
  replace (i + 4096) with (i + 1 * 4096) by lia.
  apply Z.mod_add. lia.
Qed.

(** X19.  The loop counter of [mon_showmappings] wraps: on a range that
    ends in the last page of the address space, from a begin whose page
    offset is not above that of the end, with all page tables present,
    the test [i <= end] never fails and the loop is still running after
    any number of steps, having printed one report per step. *)
Theorem mon_showmappings_wraps_forever (fuel : nat) (name a1 a2 : string)
    (rest : list string) (tf : Z) (k : kernel) :
  2 ^ 32 - PGSIZE <= convert a2 ->
  convert a1 mod PGSIZE <= convert a2 mod PGSIZE ->
  (forall d, 0 <= d < 1024 -> is_Some (kern_pgdir k !! d)) ->
  exists k',
    mon_showmappings fuel 3 (name :: a1 :: a2 :: rest) tf k = (OutOfFuel, k') /\
    length (console k') = (length (console k) + 1 + 2 * fuel)%nat /\
    kern_pgdir k' = kern_pgdir k.
Proof.
  intros He Hoff Hfull.
  assert (Ha1 : 0 <= convert a1 < 2 ^ 32)
    by (rewrite convert_unfold; apply to_uint32_range).
  assert (Ha2 : 0 <= convert a2 < 2 ^ 32)
    by (rewrite convert_unfold; apply to_uint32_range).
  assert (Hloop : forall n i k0,
            kern_pgdir k0 = kern_pgdir k ->
            0 <= i < 2 ^ 32 -> i mod PGSIZE = convert a1 mod PGSIZE ->
            exists k',
              mon_showmappings_loop n i (convert a2) k0 = (OutOfFuel, k') /\
              length (console k') = (length (console k0) + 2 * n)%nat /\
              kern_pgdir k' = kern_pgdir k).
  { induction n as [|n IH]; intros i k0 Hpd Hi Ho.
    - exists k0. cbn [mon_showmappings_loop].
      pose proof (wrapped_page_below_end i (convert a2) _ Hi Ho He Hoff
                    ltac:(lia)) as Hle.
      destruct (Z.leb_spec i (convert a2)); [|lia].
      split; [reflexivity|]. split; [lia|exact Hpd].
    - pose proof (wrapped_page_below_end i (convert a2) _ Hi Ho He Hoff
                    ltac:(lia)) as Hle.
      destruct (Hfull (PDX i)) as [pt Hpt].
      { unfold PDX. change 1023 with (Z.ones 10).
        rewrite Z.land_ones by lia. apply Z.mod_pos_bound. lia. }
      rewrite <- Hpd in Hpt.
      assert (Hleaf : leaf_entry (kern_pgdir k0) i =
                      Some (default 0 (leaf_entry (kern_pgdir k0) i))).
      { unfold leaf_entry, pte_at. cbn [fst snd]. rewrite Hpt. reflexivity. }
      rewrite (mon_showmappings_loop_step n i _ k0 k0 _ Hle
                 (pgdir_walk_present i true k0 pt Hpt) Hleaf).
      destruct (next_page_offset i Hi) as [Hnext Hnexto].
      destruct (IH (to_uint32 (i + PGSIZE))
                  (set_console (console k0 ++ page_report i
                     (default 0 (leaf_entry (kern_pgdir k0) i))) k0))
        as (k' & Hrun & Hlen & Hpd');
        [exact Hpd|exact Hnext|congruence|].
      exists k'. split; [exact Hrun|]. split; [|exact Hpd'].
      rewrite Hlen. cbn [console set_console]. rewrite length_app.
      unfold page_report. cbn [length]. lia. }
  unfold mon_showmappings. cbn [Z.eqb Pos.eqb negb].
  rewrite (bind_done _ _ k a1 k) by reflexivity.
  rewrite (bind_done _ _ k a2 k) by reflexivity.
  rewrite (bind_done _ _ _ _ _ (cprintf_run _ _ _)).
  destruct (Hloop fuel (convert a1)
              (set_console (console k ++
                 [Cprintf "Got args: 0x%08x 0x%08x\n"
                    [ArgInt (convert a1); ArgInt (convert a2)]]) k))
    as (k' & Hrun & Hlen & Hpd); [reflexivity|exact Ha1|reflexivity|].
  exists k'. split; [exact Hrun|]. split; [|exact Hpd].
  rewrite Hlen. cbn [console set_console]. rewrite length_app. cbn [length]. lia.
Qed.

(** ** The further properties on sample kernels *)

Lemma convert_to_hex_witness : convert (to_hex 4096) = 4096.
Proof. apply (convert_to_hex 4096). lia. Defined.

Lemma parse_args_bounds_witness :
  (length ["vvm"; "0x10"; "4"] < MAXARGS)%nat /\
  length ["vvm"; "0x10"; "4"] = count_tokens false "vvm  0x10 4" /\
  Forall (fun t => is_token t = true) ["vvm"; "0x10"; "4"].
Proof. apply (parse_args_bounds "vvm  0x10 4"). reflexivity. Defined.

Lemma lookup_command_first_match_witness :
  lookup_command commands "vvm" =
  Some (mkCommand "vvm" "Dump contents of certain virtual memory" fn_vvm).
Proof.
  apply (proj2 (proj2 (proj2 (lookup_command_first_match commands "vvm")))
           (mkCommand "vvm" "Dump contents of certain virtual memory" fn_vvm)).
  unfold commands. repeat constructor.
Defined.

Lemma runcmd_in_line_witness :
  runcmd_in (fun f : handler => f) quit_table
    (" " +:+ join_line [("nop", " ")] +:+ "x") 0 empty_kernel =
  (Done 1, empty_kernel).
Proof.
  rewrite (runcmd_in_line (fun f : handler => f) quit_table " "
             [("nop", " ")] "x" 0 empty_kernel);
    [reflexivity|reflexivity|repeat constructor|right; reflexivity
    |vm_compute; lia].
Defined.

Lemma mon_help_lists_commands_witness :
  exists c, c ∈ commands /\ name c = "vpm".
Proof.
  apply (proj2 (proj2 (mon_help_lists_commands 1 ["help"] 0 empty_kernel)) "vpm").
  eexists. reflexivity.
Defined.

Lemma mon_backtrace_without_sentinel_witness :
  exists k',
    mon_backtrace (H := sample_services) 5 1 ["backtrace"] 0 sample_loop_stack
      = (OutOfFuel, k') /\
    length (console k') = (length (console sample_loop_stack) + 1 + 2 * 5)%nat.
Proof.
  apply (mon_backtrace_without_sentinel (H := sample_services)
           (fun p => p = 1000)); [|reflexivity].
  intros p ->. split; [discriminate|]. eexists. split; reflexivity.
Defined.

Lemma mon_backtrace_unreadable_frame_witness :
  mon_backtrace (H := sample_services) 2 1 ["backtrace"] 0 sample_broken_stack =
  (Crash,
   set_console
     (Cprintf "Stack backreace:\n" []
      :: frame_record (H := sample_services) (mkFrame 1000 11 [1; 2; 3; 4; 5] 2000)
      ++ frame_record (H := sample_services) (mkFrame 2000 22 [6; 7; 8; 9; 10] 0))
     sample_broken_stack)
  /\ memory sample_broken_stack !! 2000 = None.
Proof.
  destruct (mon_backtrace_unreadable_frame (H := sample_services) 2 1
              ["backtrace"] 0 sample_broken_stack
              [mkFrame 1000 11 [1; 2; 3; 4; 5] 2000] 2000)
    as (Hrun & Hsaved).
  - apply walk_frame; [discriminate|reflexivity|apply walk_here].
  - discriminate.
  - reflexivity.
  - cbn. lia.
  - split; [exact Hrun|]. apply Hsaved. eexists. reflexivity.
Defined.

Lemma mon_showmappings_walk_error_witness :
  mon_showmappings 2 3 ["showmappings"; "0x3ff000"; "0x400000"] 0 sample_tables =
  (Done 0,
   set_console
     [ Cprintf "Got args: 0x%08x 0x%08x\n" [ArgInt 4190208; ArgInt 4194304];
       Cprintf "Virtual address : 0x%08x " [ArgInt 4190208];
       Cprintf "is not mapped!\n" [];
       Cprintf "Page walk error!\n" [] ] sample_tables).
Proof.
  apply (mon_showmappings_walk_error 2 "showmappings" "0x3ff000" "0x400000" []
           0 sample_tables [4190208] [] 4194304).
  - vm_compute. reflexivity.
  - reflexivity.
  - repeat constructor. exists ∅. reflexivity.
  - reflexivity.
  - reflexivity.
  - cbn. lia.
Defined.

Lemma mon_showmappings_keeps_entries_witness :
  kern_pgdir
    (mon_showmappings 2 3 ["showmappings"; "0x3ff000"; "0x400000"] 0
       sample_tables).2 !! 0 = Some ∅.
Proof.
  apply (proj1 (proj2 (mon_showmappings_keeps_entries 2 3
                         ["showmappings"; "0x3ff000"; "0x400000"] 0
                         sample_tables))).
  reflexivity.
Defined.

Lemma setPerm_unchecked_value_witness :
  exists k1,
    setPerm 3 ["setPerm"; "0x1000"; "0x5007"] 0 sample_one_free_page = (Done 0, k1) /\
    leaf_entry (kern_pgdir k1) 4096 = Some 20487 /\
    PTE_ADDR 20487 = Z.lor (PTE_ADDR 0) (PTE_ADDR 20487).
Proof.
  destruct (setPerm_unchecked_value "setPerm" "0x1000" "0x5007" [] 0
              sample_one_free_page)
    as (k1 & Hrun & _ & Hleaf & _ & Hframe & _).
  - right. discriminate.
  - exists k1. split; [exact Hrun|]. split; [exact Hleaf|exact Hframe].
Defined.

Lemma setPerm_last_value_wins_witness :
  setPerm 3 ["setPerm"; "0x1000"; "0x3"] 0
    (setPerm 3 ["setPerm"; "0x1000"; "0x7"] 0 sample_one_free_page).2 =
  setPerm 3 ["setPerm"; "0x1000"; "0x3"] 0 sample_one_free_page.
Proof.
  apply (setPerm_last_value_wins "setPerm" "0x1000" "0x7" "0x3" [] 0
           sample_one_free_page).
  - vm_compute. reflexivity.
  - right. discriminate.
Defined.

Lemma vvm_dumps_words_witness :
  vvm 3 3 ["vvm"; "0x10"; "3"] 0 sample_words =
  (Done 0,
   set_console
     (console sample_words ++ map dump_line [(16, 111); (20, 222); (24, 333)])
     sample_words).
Proof.
  apply (vvm_dumps_words 3 "vvm" "0x10" "3" [] 0 sample_words
           [(16, 111); (20, 222); (24, 333)]).
  - vm_compute. reflexivity.
  - repeat (apply dumped_cons; [reflexivity|reflexivity|]). apply dumped_nil.
  - reflexivity.
  - cbn. lia.
Defined.

Lemma vvm_faults_at_unreadable_word_witness :
  vvm 9 3 ["vvm"; "0x10"; "5"] 0 sample_words =
  (Crash,
   set_console
     (console sample_words ++ map dump_line [(16, 111); (20, 222); (24, 333)])
     sample_words).
Proof.
  apply (vvm_faults_at_unreadable_word 9 "vvm" "0x10" "5" [] 0 sample_words
           [(16, 111); (20, 222); (24, 333)]).
  - vm_compute. reflexivity.
  - repeat (apply dumped_cons; [reflexivity|reflexivity|]). apply dumped_nil.
  - vm_compute. reflexivity.
  - reflexivity.
  - cbn. lia.
Defined.

Lemma vpm_dumps_translated_words_witness :
  vpm (H := sample_services) 2 3 ["vpm"; "0x10"; "2"] 0 sample_words =
  (Done 0,
   set_console
     (console sample_words ++ map dump_line [(16, 444); (20, 555)]) sample_words).
Proof.
  apply (proj2 (vpm_dumps_translated_words (H := sample_services) 2 "vpm" "0x10"
                  "2" [] 0 sample_words) 4026531856).
  - reflexivity.
  - lia.
  - vm_compute. reflexivity.
  - repeat (apply dumped_cons; [reflexivity|reflexivity|]). apply dumped_nil.
  - reflexivity.
  - cbn. lia.
Defined.

Lemma commands_effects_witness :
  kern_pgdir
    (call (H := sample_services) 3 fn_mon_backtrace 1 ["backtrace"] 0
       sample_stack).2 = kern_pgdir sample_stack.
Proof.
  apply (proj2 (commands_effects (H := sample_services) 3
                  fn_mon_backtrace 1 ["backtrace"] 0 sample_stack)).
  reflexivity.
Defined.

Lemma setPerm_clear_present_unmaps_witness :
  mon_showmappings 1 3 ["showmappings"; "0x1000"; "0x1000"] 0
    (setPerm 3 ["setPerm"; "0x1000"; "0x6"] 0 sample_one_free_page).2 =
  (Done 0,
   set_console
     (console sample_one_free_page ++
      [ Cprintf "Got args: 0x%08x 0x%08x\n" [ArgInt 4096; ArgInt 4096];
        Cprintf "Virtual address : 0x%08x " [ArgInt 4096];
        Cprintf "is not mapped!\n" [] ])
     (setPerm 3 ["setPerm"; "0x1000"; "0x6"] 0 sample_one_free_page).2).
Proof.
  apply (setPerm_clear_present_unmaps 0 "setPerm" "showmappings" "0x1000" "0x6"
           0 sample_one_free_page).
  - reflexivity.
  - right. discriminate.
  - vm_compute. reflexivity.
Defined.

Lemma mon_showmappings_wraps_forever_witness :
  exists k',
    mon_showmappings 3 3 ["showmappings"; "0xfffff000"; "0xfffff000"] 0
      sample_full_tables = (OutOfFuel, k') /\
    length (console k') = (length (console sample_full_tables) + 1 + 2 * 3)%nat /\
    kern_pgdir k' = kern_pgdir sample_full_tables.
Proof.
  apply (mon_showmappings_wraps_forever 3 "showmappings" "0xfffff000"
           "0xfffff000" [] 0 sample_full_tables).
  - vm_compute. discriminate.
  - vm_compute. discriminate.
  - intros d Hd. unfold sample_full_tables. cbn [kern_pgdir].
    rewrite lookup_gset_to_gmap, option_guard_True; [eexists; reflexivity|].
    apply elem_of_list_to_set, elem_of_seqZ. lia.
Defined.
